(** * MRM Cybersecurity API: the request handlers of [main.py] and the
      record schemas of [schemas.py], embedded and verified.

    Conventions of the embedding.
    - A Python [dict] with string keys is a [gmap string _]; a dict whose
      insertion order is observable (the MongoDB filter) is an association
      list.
    - A Python exception is a value of [exn]; a computation that may raise
      is an [outcome].
    - The process-wide [db] handle is [None] or a MongoDB database; the
      handlers that write thread it explicitly.
    - Strings are sequences of 8-bit characters; letter case is ASCII
      case. *)

From stdpp Require Import gmap strings list fin_maps sorting pretty.
From Stdlib Require Import ZArith Ascii.

Local Open Scope Z_scope.

(** ** Exceptions and outcomes *)

Inductive exn : Type :=
| HTTPException (status_code : nat) (detail : string)
| TypeError
| AttributeError
| ImportError
| RequestException
| ValidationError (model : string) (fields : list string)
| StorageUnavailable
| InvalidDocument.

(** [Unmodelled] marks a run that depends on behaviour of an external
    service outside the fragment described here (see [compile_regex]);
    no statement below draws a conclusion from it. *)
Inductive outcome (A : Type) : Type :=
| Returned (a : A)
| Raised (e : exn)
| Unmodelled.
Arguments Returned {A} a.
Arguments Raised {A} e.
Arguments Unmodelled {A}.

#[global] Instance outcome_ret : MRet outcome := @Returned.
#[global] Instance outcome_bind : MBind outcome := λ A B f m,
  match m with
  | Returned a => f a
  | Raised e => Raised e
  | Unmodelled => Unmodelled
  end.
#[global] Instance outcome_fmap : FMap outcome := λ A B f m,
  match m with
  | Returned a => Returned (f a)
  | Raised e => Raised e
  | Unmodelled => Unmodelled
  end.

(** [[f(x) for x in l]], evaluated left to right. *)
Fixpoint traverse {A B} (f : A → outcome B) (l : list A) : outcome (list B) :=
  match l with
  | [] => Returned []
  | x :: l' => y ← f x; ys ← traverse f l'; Returned (y :: ys)
  end.

(** ** Python values held by documents *)

(** The values of the fields the schemas declare: [None], [int], [str]
    and [List[str]]. *)
Inductive value : Type :=
| VNone
| VInt (z : Z)
| VStr (s : string)
| VList (l : list string).

#[global] Instance value_eq_dec : EqDecision value.
Proof. solve_decision. Defined.

Abbreviation dict := (gmap string value).

(** [d.get(k, dflt)] *)
Definition dict_get (d : dict) (k : string) (dflt : value) : value :=
  default dflt (d !! k).

(** [bool(s)] for an optional string parameter: [None] and [""] are
    falsy. *)
Definition truthy (s : option string) : bool :=
  match s with
  | Some (String _ _) => true
  | _ => false
  end.

(** ** Python's [<] on values and [list.sort] *)

Fixpoint list_lt (a b : list string) : bool :=
  match a, b with
  | [], [] => false
  | [], _ :: _ => true
  | _ :: _, [] => false
  | x :: a', y :: b' =>
      if String.eqb x y then list_lt a' b' else String.ltb x y
  end.

(** [a < b]: defined between two ints, two strs and two lists; every
    other pairing raises [TypeError]. *)
Definition py_lt (a b : value) : outcome bool :=
  match a, b with
  | VInt x, VInt y => Returned (Z.ltb x y)
  | VStr x, VStr y => Returned (String.ltb x y)
  | VList x, VList y => Returned (list_lt x y)
  | _, _ => Raised TypeError
  end.

Section ListSort.
Context {A : Type}.

(** Stable insertion of a keyed element in front of the first element
    that is not smaller; only [<] is used, as in CPython. *)
Fixpoint insert_keyed (x : value * A) (l : list (value * A))
  : outcome (list (value * A)) :=
  match l with
  | [] => Returned [x]
  | y :: l' =>
      b ← py_lt (fst y) (fst x);
      if b : bool then (λ r, y :: r) <$> insert_keyed x l'
      else Returned (x :: y :: l')
  end.

Fixpoint sort_keyed (l : list (value * A)) : outcome (list (value * A)) :=
  match l with
  | [] => Returned []
  | x :: l' => s ← sort_keyed l'; insert_keyed x s
  end.

(** [l.sort(key=key, reverse=reverse)]: the keys are computed first,
    once per element and in list order; with [reverse] the list is
    reversed before and after a stable ascending sort. *)
Definition list_sort (key : A → outcome value) (reverse : bool)
    (l : list A) : outcome (list A) :=
  ks ← traverse key l;
  let keyed := zip ks l in
  let keyed := if reverse then rev keyed else keyed in
  sorted ← sort_keyed keyed;
  let sorted := if reverse then rev sorted else sorted in
  Returned (map snd sorted).
End ListSort.

(** ** The document store (MongoDB, through [database.py]) *)

(** A stored document: the [ObjectId] MongoDB keeps under ["_id"], and
    the other fields. *)
Record stored : Type := Stored { oid : N; fields : dict }.

Record database : Type := Database {
  collections : gmap string (list stored);
  next_oid : N
}.

(** [db[name]]: a collection never written to is empty. *)
Definition collection (d : database) (name : string) : list stored :=
  default [] (collections d !! name).

(** [db[name].count_documents({})] *)
Definition count_documents (d : database) (name : string) : nat :=
  length (collection d name).

Definition hex_digit (n : N) : ascii :=
  nth (N.to_nat n) (String.list_ascii_of_string "0123456789abcdef") "0"%char.

Fixpoint hex_fixed (digits : nat) (n : N) : string :=
  match digits with
  | O => ""
  | S k => hex_fixed k (n / 16)%N +:+ String (hex_digit (n mod 16)%N) ""
  end.

(** [str(ObjectId)]: 24 lowercase hexadecimal digits. *)
Definition oid_str (n : N) : string := hex_fixed 24 n.

(** *** Query conditions *)

(** The two shapes [list_tools] puts in its filter:
    [{"$regex": p, "$options": o}] and a plain value. *)
Inductive condition : Type :=
| Regex (pattern options : string)
| Equals (v : value).

(** The fragment of MongoDB's (PCRE) patterns modelled here: a sequence
    of literal characters and dots. *)
Inductive atom : Type :=
| Lit (c : ascii)
| AnyChar.

Definition metachars : list ascii :=
  String.list_ascii_of_string "\^$.[]|()?*+{}".

Definition is_metachar (c : ascii) : bool :=
  existsb (Ascii.eqb c) metachars.

(** A pattern that uses any other metacharacter is outside the
    fragment. *)
Fixpoint compile_regex (p : string) : option (list atom) :=
  match p with
  | EmptyString => Some []
  | String c p' =>
      rest ← compile_regex p';
      if Ascii.eqb c "."%char then Some (AnyChar :: rest)
      else if is_metachar c then None
      else Some (Lit c :: rest)
  end.

Definition is_upper (c : ascii) : bool :=
  (65 <=? nat_of_ascii c)%nat && (nat_of_ascii c <=? 90)%nat.

Definition to_lower (c : ascii) : ascii :=
  if is_upper c then ascii_of_nat (nat_of_ascii c + 32) else c.

Definition char_eq (ignore_case : bool) (a b : ascii) : bool :=
  if ignore_case then Ascii.eqb (to_lower a) (to_lower b) else Ascii.eqb a b.

(** A dot matches every character but the newline. *)
Definition atom_matches (ignore_case : bool) (a : atom) (c : ascii) : bool :=
  match a with
  | Lit x => char_eq ignore_case x c
  | AnyChar => negb (Ascii.eqb c "010"%char)
  end.

Fixpoint match_here (ignore_case : bool) (p : list atom) (s : string) : bool :=
  match p, s with
  | [], _ => true
  | _ :: _, EmptyString => false
  | a :: p', String c s' =>
      atom_matches ignore_case a c && match_here ignore_case p' s'
  end.

(** An unanchored pattern matches when it matches at some offset. *)
Fixpoint regex_search (ignore_case : bool) (p : list atom) (s : string) : bool :=
  match_here ignore_case p s ||
  match s with
  | EmptyString => false
  | String _ s' => regex_search ignore_case p s'
  end.

(** [$options]: only the empty option string and ["i"] are modelled. *)
Definition regex_options (o : string) : option bool :=
  if String.eqb o "" then Some false
  else if String.eqb o "i" then Some true
  else None.

Definition matcher : Type := option value → bool.

(** A regular expression matches a string field, or an array field with
    a matching element. *)
Definition regex_matcher (ignore_case : bool) (p : list atom) : matcher :=
  λ field,
    match field with
    | Some (VStr s) => regex_search ignore_case p s
    | Some (VList l) => existsb (regex_search ignore_case p) l
    | _ => false
    end.

(** A plain value matches an equal field, or an array field that
    contains it; [None] also matches a missing field. *)
Definition equals_matcher (v : value) : matcher :=
  λ field,
    match field with
    | None => bool_decide (v = VNone)
    | Some (VList l) =>
        bool_decide (v = VList l) ||
        match v with
        | VStr s => existsb (String.eqb s) l
        | _ => false
        end
    | Some w => bool_decide (v = w)
    end.

Definition compile_condition (c : condition) : outcome matcher :=
  match c with
  | Equals v => Returned (equals_matcher v)
  | Regex p o =>
      match regex_options o, compile_regex p with
      | Some ignore_case, Some atoms =>
          Returned (regex_matcher ignore_case atoms)
      | _, _ => Unmodelled
      end
  end.

Abbreviation filter_dict := (list (string * condition)).

(** [filter_dict[k] = c] on an insertion-ordered dict. *)
Fixpoint set_item (k : string) (c : condition) (f : filter_dict) : filter_dict :=
  match f with
  | [] => [(k, c)]
  | (k', c') :: f' =>
      if String.eqb k k' then (k, c) :: f' else (k', c') :: set_item k c f'
  end.

Definition doc_matches (ms : list (string * matcher)) (d : stored) : bool :=
  forallb (λ km : string * matcher, snd km (fields d !! fst km)) ms.

(** [db[name].find(flt)]: the documents that satisfy every condition,
    in storage order. *)
Definition find (flt : filter_dict) (coll : list stored) : outcome (list stored) :=
  ms ← traverse (λ kc : string * condition,
                   m ← compile_condition (snd kc); Returned (fst kc, m)) flt;
  Returned (List.filter (doc_matches ms) coll).

(** The dict PyMongo hands out for a stored document, after
    [t["_id"] = str(t["_id"])]. *)
Definition stringify_id (d : stored) : dict :=
  <["_id" := VStr (oid_str (oid d))]> (fields d).

(** ** [GET /tools] and [GET /courses] *)

Definition diff_order : gmap string Z :=
  <["Advanced" := 2]> (<["Intermediate" := 1]> (<["Beginner" := 0]> ∅)).

(** [diff_order.get(v, 0)]: a list is unhashable. *)
Definition diff_order_get (v : value) : outcome value :=
  match v with
  | VList _ => Raised TypeError
  | VStr s => Returned (VInt (default 0 (diff_order !! s)))
  | _ => Returned (VInt 0)
  end.

Definition sort_is (sort : option string) (name : string) : bool :=
  match sort with
  | Some s => String.eqb s name
  | None => false
  end.

(** Lines 84-88: the filter built from [q] and [category]. *)
Definition tools_filter (q category : option string) : filter_dict :=
  let flt : filter_dict := [] in
  let flt :=
    if truthy q then set_item "name" (Regex (default "" q) "i") flt
    else flt in
  if truthy category
  then set_item "category" (Equals (VStr (default "" category))) flt
  else flt.

(** Lines 92-98: the [if]/[elif] chain on [sort]. *)
Definition sort_tools (sort : option string) (tools : list dict)
  : outcome (list dict) :=
  if sort_is sort "popularity" then
    list_sort (λ x, Returned (dict_get x "popularity" (VInt 0))) true tools
  else if sort_is sort "difficulty" then
    list_sort (λ x, diff_order_get (dict_get x "difficulty" (VStr "Beginner")))
              false tools
  else if sort_is sort "category" then
    list_sort (λ x, Returned (dict_get x "category" (VStr ""))) false tools
  else Returned tools.

Definition list_tools (db : option database) (q category sort : option string)
  : outcome (list dict) :=
  match db with
  | None => Returned []
  | Some d =>
      found ← find (tools_filter q category) (collection d "tool");
      sort_tools sort (map stringify_id found)
  end.

Definition list_courses (db : option database) : outcome (list dict) :=
  match db with
  | None => Returned []
  | Some d =>
      found ← find [] (collection d "course");
      Returned (map stringify_id found)
  end.

(** ** Handlers that write: state and exceptions *)

(** A handler run starts from the current [db] and yields an outcome and
    the [db] it leaves behind; what was written before an exception
    stays written. *)
Definition action (A : Type) : Type :=
  option database → outcome A * option database.

Definition ret {A} (a : A) : action A := λ db, (Returned a, db).
Definition raise {A} (e : exn) : action A := λ db, (Raised e, db).
Definition lift {A} (m : outcome A) : action A := λ db, (m, db).
Definition get_db : action (option database) := λ db, (Returned db, db).

#[global] Instance action_bind : MBind action := λ A B k m db,
  match m db with
  | (Returned a, db') => k a db'
  | (Raised e, db') => (Raised e, db')
  | (Unmodelled, db') => (Unmodelled, db')
  end.

(** [try: m  except Exception as e: h(e)] *)
Definition try_except {A} (m : action A) (h : exn → action A) : action A :=
  λ db,
    match m db with
    | (Raised e, db') => h e db'
    | r => r
    end.

(** [if c: m] *)
Definition when (c : bool) (m : action unit) : action unit :=
  if c then m else ret tt.

(** [db[name].insert_one(record)]: the document goes last and gets the
    next [ObjectId]. *)
Definition insert_one (name : string) (record : dict) (d : database) : database :=
  {| collections :=
       <[name := collection d name ++ [Stored (next_oid d) record]]>
         (collections d);
     next_oid := N.succ (next_oid d) |}.

(** What a record handed to the store holds under a field: a value the
    store can keep, or the [Url] object pydantic keeps for an [HttpUrl]
    field. *)
Inductive dumped : Type :=
| Plain (v : value)
| UrlObject (url : string).

(** A record of values the store can keep. *)
Definition plain_record (record : dict) : gmap string dumped :=
  Plain <$> record.

(** The BSON encoding of one field: there is none for a [Url] object. *)
Definition encode_value (x : dumped) : option value :=
  match x with
  | Plain v => Some v
  | UrlObject _ => None
  end.

(** The store encodes a record before it keeps it, and raises
    [InvalidDocument] on a field it cannot encode. *)
Definition encode (record : gmap string dumped) : outcome dict :=
  if decide (map_Forall (λ (_ : string) x, is_Some (encode_value x)) record)
  then Returned (omap encode_value record)
  else Raised InvalidDocument.

(** Modelled from the spec: [create_document] of [database.py], which is
    not among the sources. "Inserts one record into the named
    collection; returns a stable opaque identifier. Fails with a
    StorageUnavailable condition if no connection exists at call time."
    The record is given by its fields; the insert goes through the
    store's encoding, so a record that cannot be encoded raises and
    nothing is stored; the identifier is the string form of the
    [ObjectId] the store assigns. *)
Definition create_document (name : string) (record : gmap string dumped)
  : action string :=
  λ db,
    match db with
    | None => (Raised StorageUnavailable, None)
    | Some d =>
        match encode record with
        | Returned doc =>
            (Returned (oid_str (next_oid d)), Some (insert_one name doc d))
        | Raised e => (Raised e, db)
        | Unmodelled => (Unmodelled, db)
        end
    end.

(** ** The schemas of [schemas.py] *)

Record Tool : Type := {
  tool_name : string;
  tool_description : string;
  tool_category : string;
  tool_tags : list string;
  tool_popularity : Z;
  tool_difficulty : string;
  tool_link : option string
}.

Record Course : Type := {
  course_title : string;
  course_thumbnail : option string;
  course_difficulty : string;
  course_slug : string;
  course_description : option string
}.

Record Lab : Type := {
  lab_title : string;
  lab_category : string;
  lab_estimated_minutes : Z;
  lab_link : option string;
  lab_score : Z
}.

Record ContactMessage : Type := {
  contact_name : string;
  contact_email : string;
  contact_message : string
}.

Record Subscriber : Type := {
  subscriber_email : string;
  subscriber_source : option string
}.

(** The keyword arguments of a constructor call, each of the type its
    field declares; [None] is an argument left out. *)
Record ToolArgs : Type := {
  a_name : option string;
  a_description : option string;
  a_category : option string;
  a_tags : option (list string);
  a_popularity : option Z;
  a_difficulty : option string;
  a_link : option string
}.

Record CourseArgs : Type := {
  c_title : option string;
  c_thumbnail : option string;
  c_difficulty : option string;
  c_slug : option string;
  c_description : option string
}.

Record LabArgs : Type := {
  l_title : option string;
  l_category : option string;
  l_estimated_minutes : option Z;
  l_link : option string;
  l_score : option Z
}.

Definition tool_categories : list string :=
  ["Reconnaissance"; "Exploitation"; "Forensics"; "Web Security";
   "Wireless"; "OSINT"].

Definition difficulty_levels : list string :=
  ["Beginner"; "Intermediate"; "Advanced"].

(** [Field(...)]: the argument must be given. *)
Definition required {T} (field : string) (v : option T) : list string :=
  match v with
  | Some _ => []
  | None => [field]
  end.

(** [Literal[...]] *)
Definition literal (field : string) (allowed : list string)
    (v : option string) : list string :=
  match v with
  | Some s => if existsb (String.eqb s) allowed then [] else [field]
  | None => []
  end.

(** [ge=lo] *)
Definition ge (field : string) (lo : Z) (v : option Z) : list string :=
  match v with
  | Some z => if lo <=? z then [] else [field]
  | None => []
  end.

(** [le=hi] *)
Definition le (field : string) (hi : Z) (v : option Z) : list string :=
  match v with
  | Some z => if z <=? hi then [] else [field]
  | None => []
  end.

Section Schemas.
(** pydantic's [HttpUrl] parser: the parsed URL of a well-formed
    input, [None] for any other string. *)
Variable parse_http_url : string → option string.

(** [Optional[HttpUrl] = None] *)
Definition http_url (field : string) (v : option string) : list string :=
  match v with
  | Some s =>
      match parse_http_url s with
      | Some _ => []
      | None => [field]
      end
  | None => []
  end.

(** The fields a [Tool(...)] call is refused for, in declaration
    order. *)
Definition Tool_errors (a : ToolArgs) : list string :=
  required "name" (a_name a) ++
  required "description" (a_description a) ++
  required "category" (a_category a) ++
  literal "category" tool_categories (a_category a) ++
  ge "popularity" 0 (a_popularity a) ++
  literal "difficulty" difficulty_levels (a_difficulty a) ++
  http_url "link" (a_link a).

Definition Tool_new (a : ToolArgs) : outcome Tool :=
  match Tool_errors a with
  | [] =>
      Returned {|
        tool_name := default "" (a_name a);
        tool_description := default "" (a_description a);
        tool_category := default "" (a_category a);
        tool_tags := default [] (a_tags a);
        tool_popularity := default 0 (a_popularity a);
        tool_difficulty := default "Beginner" (a_difficulty a);
        tool_link := a_link a ≫= parse_http_url
      |}
  | errs => Raised (ValidationError "Tool" errs)
  end.

Definition Course_errors (a : CourseArgs) : list string :=
  required "title" (c_title a) ++
  http_url "thumbnail" (c_thumbnail a) ++
  literal "difficulty" difficulty_levels (c_difficulty a) ++
  required "slug" (c_slug a).

Definition Course_new (a : CourseArgs) : outcome Course :=
  match Course_errors a with
  | [] =>
      Returned {|
        course_title := default "" (c_title a);
        course_thumbnail := c_thumbnail a ≫= parse_http_url;
        course_difficulty := default "Beginner" (c_difficulty a);
        course_slug := default "" (c_slug a);
        course_description := c_description a
      |}
  | errs => Raised (ValidationError "Course" errs)
  end.

Definition Lab_errors (a : LabArgs) : list string :=
  required "title" (l_title a) ++
  required "category" (l_category a) ++
  literal "category" difficulty_levels (l_category a) ++
  required "estimated_minutes" (l_estimated_minutes a) ++
  ge "estimated_minutes" 5 (l_estimated_minutes a) ++
  le "estimated_minutes" 240 (l_estimated_minutes a) ++
  http_url "link" (l_link a) ++
  ge "score" 0 (l_score a).

Definition Lab_new (a : LabArgs) : outcome Lab :=
  match Lab_errors a with
  | [] =>
      Returned {|
        lab_title := default "" (l_title a);
        lab_category := default "" (l_category a);
        lab_estimated_minutes := default 0 (l_estimated_minutes a);
        lab_link := l_link a ≫= parse_http_url;
        lab_score := default 0 (l_score a)
      |}
  | errs => Raised (ValidationError "Lab" errs)
  end.
End Schemas.

Definition opt_str (o : option string) : value :=
  match o with
  | Some s => VStr s
  | None => VNone
  end.

(** What [model_dump()] holds for an [Optional[HttpUrl]] field: [None],
    or the [Url] object itself, not its text. *)
Definition opt_url (o : option string) : dumped :=
  match o with
  | Some u => UrlObject u
  | None => Plain VNone
  end.

(** [model_dump()] *)
Definition Tool_dump (t : Tool) : gmap string dumped :=
  <["name" := Plain (VStr (tool_name t))]>
  (<["description" := Plain (VStr (tool_description t))]>
  (<["category" := Plain (VStr (tool_category t))]>
  (<["tags" := Plain (VList (tool_tags t))]>
  (<["popularity" := Plain (VInt (tool_popularity t))]>
  (<["difficulty" := Plain (VStr (tool_difficulty t))]>
  (<["link" := opt_url (tool_link t)]> ∅)))))).

Definition Course_dump (c : Course) : gmap string dumped :=
  <["title" := Plain (VStr (course_title c))]>
  (<["thumbnail" := opt_url (course_thumbnail c)]>
  (<["difficulty" := Plain (VStr (course_difficulty c))]>
  (<["slug" := Plain (VStr (course_slug c))]>
  (<["description" := Plain (opt_str (course_description c))]> ∅)))).

Definition Lab_dump (l : Lab) : gmap string dumped :=
  <["title" := Plain (VStr (lab_title l))]>
  (<["category" := Plain (VStr (lab_category l))]>
  (<["estimated_minutes" := Plain (VInt (lab_estimated_minutes l))]>
  (<["link" := opt_url (lab_link l)]>
  (<["score" := Plain (VInt (lab_score l))]> ∅)))).

Definition Subscriber_dump (s : Subscriber) : dict :=
  <["email" := VStr (subscriber_email s)]>
  (<["source" := opt_str (subscriber_source s)]> ∅).

Definition ContactMessage_dump (m : ContactMessage) : dict :=
  <["name" := VStr (contact_name m)]>
  (<["email" := VStr (contact_email m)]>
  (<["message" := VStr (contact_message m)]> ∅)).

(** ** [POST /seed], [POST /subscribe], [POST /contact] *)

(** [str(e)]. Starlette renders an [HTTPException] as
    ["<status>: <detail>"]; the texts of the other exceptions belong to
    their libraries and are kept short here. *)
Definition exn_str (e : exn) : string :=
  match e with
  | HTTPException status detail => pretty status +:+ ": " +:+ detail
  | ValidationError model errs =>
      pretty (length errs) +:+ " validation errors for " +:+ model
  | TypeError => "TypeError"
  | AttributeError => "AttributeError"
  | ImportError => "ImportError"
  | RequestException => "RequestException"
  | StorageUnavailable => "Database not available"
  | InvalidDocument => "cannot encode object"
  end.

Definition status_body (s : string) : gmap string string :=
  {["status" := s]}.

Definition nmap_args : ToolArgs := {|
  a_name := Some "Nmap";
  a_description :=
    Some "Network exploration tool and security / port scanner.";
  a_category := Some "Reconnaissance";
  a_tags := Some ["network"; "scanner"];
  a_popularity := Some 95;
  a_difficulty := Some "Intermediate";
  a_link := Some "https://nmap.org"
|}.

Definition wireshark_args : ToolArgs := {|
  a_name := Some "Wireshark";
  a_description := Some "Network protocol analyzer.";
  a_category := Some "Forensics";
  a_tags := Some ["packet"; "analyzer"];
  a_popularity := Some 90;
  a_difficulty := Some "Beginner";
  a_link := Some "https://www.wireshark.org"
|}.

Definition ethical_hacking_args : CourseArgs := {|
  c_title := Some "Ethical Hacking Basics";
  c_thumbnail := None;
  c_difficulty := Some "Beginner";
  c_slug := Some "ethical-hacking-basics";
  c_description := Some "Kickstart into ethical hacking."
|}.

Definition linux_args : CourseArgs := {|
  c_title := Some "Linux for Hackers";
  c_thumbnail := None;
  c_difficulty := Some "Beginner";
  c_slug := Some "linux-for-hackers";
  c_description := None
|}.

Definition recon_lab_args : LabArgs := {|
  l_title := Some "Intro Recon Lab";
  l_category := Some "Beginner";
  l_estimated_minutes := Some 20;
  l_link := None;
  l_score := Some 0
|}.

Section Seed.
Variable parse_http_url : string → option string.

Definition create_tool (a : ToolArgs) : action unit :=
  t ← lift (Tool_new parse_http_url a);
  create_document "tool" (Tool_dump t);; ret tt.

Definition create_course (a : CourseArgs) : action unit :=
  c ← lift (Course_new parse_http_url a);
  create_document "course" (Course_dump c);; ret tt.

Definition create_lab (a : LabArgs) : action unit :=
  l ← lift (Lab_new parse_http_url a);
  create_document "lab" (Lab_dump l);; ret tt.

(** [db[name].count_documents({}) == 0]; only reached with a [db]. *)
Definition is_empty (name : string) : action bool :=
  λ db,
    match db with
    | Some d => (Returned (Nat.eqb (count_documents d name) 0), db)
    | None => (Raised TypeError, db)
    end.

Definition seed : action (gmap string string) :=
  try_except
    (db ← get_db;
     when (bool_decide (db = None))
       (raise (HTTPException 500 "Database not configured"));;
     e ← is_empty "tool";
     when e (create_tool nmap_args;; create_tool wireshark_args);;
     e ← is_empty "course";
     when e (create_course ethical_hacking_args;; create_course linux_args);;
     e ← is_empty "lab";
     when e (create_lab recon_lab_args);;
     ret (status_body "ok"))
    (λ e, raise (HTTPException 500 (exn_str e))).
End Seed.

Definition subscribe (sub : Subscriber) : action (gmap string string) :=
  db ← get_db;
  match db with
  | None => ret (status_body "disabled")
  | Some _ =>
      create_document "subscriber" (plain_record (Subscriber_dump sub));;
      ret (status_body "ok")
  end.

Definition contact (msg : ContactMessage) : action (gmap string string) :=
  db ← get_db;
  match db with
  | None => ret (status_body "disabled")
  | Some _ =>
      create_document "contactmessage" (plain_record (ContactMessage_dump msg));;
      ret (status_body "ok")
  end.

(** ** [GET /news] *)

Set Warnings "-register-all".

(** What [r.json()] yields; numbers are integers here. *)
Inductive json : Type :=
| JNull
| JBool (b : bool)
| JNum (z : Z)
| JStr (s : string)
| JArr (items : list json)
| JObj (members : list (string * json)).

(** [bool(j)] *)
Definition json_truthy (j : json) : bool :=
  match j with
  | JNull => false
  | JBool b => b
  | JNum z => negb (z =? 0)
  | JStr s => negb (String.eqb s "")
  | JArr l => negb (Nat.eqb (length l) 0)
  | JObj m => negb (Nat.eqb (length m) 0)
  end.

(** [a or b] *)
Definition json_or (a b : json) : json :=
  if json_truthy a then a else b.

(** The value a parsed object holds under a key: the last member with
    that name. *)
Fixpoint obj_lookup (k : string) (members : list (string * json)) : option json :=
  match members with
  | [] => None
  | (k', v) :: rest =>
      match obj_lookup k rest with
      | Some w => Some w
      | None => if String.eqb k k' then Some v else None
      end
  end.

(** [j.get(k)]: only a dict has [get]. *)
Definition json_get (j : json) (k : string) : outcome json :=
  match j with
  | JObj members => Returned (default JNull (obj_lookup k members))
  | _ => Raised AttributeError
  end.

Record NewsItem : Type := {
  title : string;
  description : option string;
  url : string;
  image_url : option string;
  source : option string;
  published_at : option string
}.

(** A [str] field takes a string only. *)
Definition str_field (field : string) (j : json) : list string :=
  match j with
  | JStr _ => []
  | _ => [field]
  end.

(** An [Optional[str]] field takes a string or [None]. *)
Definition opt_str_field (field : string) (j : json) : list string :=
  match j with
  | JStr _ | JNull => []
  | _ => [field]
  end.

Definition json_str (j : json) : option string :=
  match j with
  | JStr s => Some s
  | _ => None
  end.

Definition NewsItem_new (title description url image_url source published_at : json)
  : outcome NewsItem :=
  match str_field "title" title ++
        opt_str_field "description" description ++
        str_field "url" url ++
        opt_str_field "image_url" image_url ++
        opt_str_field "source" source ++
        opt_str_field "published_at" published_at
  with
  | [] =>
      Returned {|
        title := default "" (json_str title);
        description := json_str description;
        url := default "" (json_str url);
        image_url := json_str image_url;
        source := json_str source;
        published_at := json_str published_at
      |}
  | errs => Raised (ValidationError "NewsItem" errs)
  end.

(** The body of the mapping loop for one provider result [a]. *)
Definition news_item_of (a : json) : outcome NewsItem :=
  a_title ← json_get a "title";
  a_description ← json_get a "description";
  a_link ← json_get a "link";
  a_url ← json_get a "url";
  a_image_url ← json_get a "image_url";
  a_source_id ← json_get a "source_id";
  a_pubDate ← json_get a "pubDate";
  NewsItem_new
    (json_or a_title (JStr "Untitled"))
    a_description
    (json_or (json_or a_link a_url) (JStr ""))
    (json_or (json_or a_image_url a_image_url) JNull)
    a_source_id
    (json_or a_pubDate a_pubDate).

(** [for a in articles: items.append(...)]: an exception ends the loop
    and leaves what was appended. *)
Fixpoint append_items (articles : list json) (items : list NewsItem)
  : outcome unit * list NewsItem :=
  match articles with
  | [] => (Returned tt, items)
  | a :: rest =>
      match news_item_of a with
      | Returned item => append_items rest (items ++ [item])
      | Raised e => (Raised e, items)
      | Unmodelled => (Unmodelled, items)
      end
  end.

(** [j[:12]], then iterated over: a list gives its first 12 elements, a
    string its first 12 characters; nothing else can be sliced. *)
Definition slice12 (j : json) : outcome (list json) :=
  match j with
  | JArr l => Returned (firstn 12 l)
  | JStr s =>
      Returned (map (λ c, JStr (String c ""))
                    (firstn 12 (String.list_ascii_of_string s)))
  | _ => Raised TypeError
  end.

Definition news_url (api_key : string) : string :=
  "https://newsdata.io/api/1/latest?apikey=" +:+ api_key +:+
  "&q=cybersecurity&country=us,gb,ca&language=en".

(** [os.getenv("NEWSDATA_API_KEY") or os.getenv("NEWSAPI_KEY")] *)
Definition api_key (env : gmap string string) : option string :=
  if truthy (env !! "NEWSDATA_API_KEY") then env !! "NEWSDATA_API_KEY"
  else env !! "NEWSAPI_KEY".

Definition sample_item (title url now : string) : NewsItem := {|
  title := title;
  description := None;
  url := url;
  image_url := None;
  source := Some "Sample";
  published_at := Some now
|}.

Definition sample_items (now : string) : list NewsItem :=
  [ sample_item "Latest CVE trends show rise in supply-chain attacks"
                "https://thehackernews.com/" now;
    sample_item "Krebs: Major ISP suffers DDoS impacting services"
                "https://krebsonsecurity.com/" now;
    sample_item "ThreatPost: Critical bug patched in popular router firmware"
                "https://threatpost.com/" now ].

Section News.
(** The environment, the outbound call ([import requests],
    [requests.get(url, timeout=8)] and [r.json()] together) and the
    clock ([datetime.now(timezone.utc).isoformat()]). *)
Variable env : gmap string string.
Variable fetch_json : string → outcome json.
Variable now : string.

(** The [try] block: [items] as the block leaves it. *)
Definition fetch_items (key : string) : list NewsItem :=
  match fetch_json (news_url key) with
  | Returned data =>
      match results ← json_get data "results";
            slice12 (json_or results (JArr [])) with
      | Returned articles => snd (append_items articles [])
      | _ => []
      end
  | _ => []
  end.

Definition get_news : list NewsItem :=
  let items :=
    if truthy (api_key env) then fetch_items (default "" (api_key env))
    else [] in
  match items with
  | [] => sample_items now
  | _ => items
  end.
End News.

(** ** [GET /], [GET /test], [GET /incidents] *)

Definition root : gmap string string :=
  <["name" := "MRM Cybersecurity API"]> {["status" := "ok"]}.

(** What [db.list_collection_names()] does: it lists the names, or
    raises an exception whose [str] is the message. *)
Inductive listing : Type :=
| Listed (names : list string)
| ListingFailed (message : string).

(** What [/test] uses of the [db] handle: its [name] attribute, if it
    has one, and the listing of its collections. *)
Record handle : Type := {
  handle_name : option string;
  handle_collection_names : listing
}.

(** The [response] dict of [/test]. *)
Record diagnostic : Type := {
  diag_backend : string;
  diag_database : string;
  diag_database_url : option string;
  diag_database_name : option string;
  diag_connection_status : string;
  diag_collections : list string
}.

(** A character beyond ASCII is held as its UTF-8 bytes: a first byte
    and continuation bytes, which are the bytes [10xxxxxx]. *)
Definition is_continuation (c : ascii) : bool :=
  match c with
  | Ascii _ _ _ _ _ _ false true => true
  | _ => false
  end.

(** [s[:n]]: the first [n] characters of [s]. *)
Fixpoint take_chars (n : nat) (s : string) : string :=
  match s with
  | EmptyString => EmptyString
  | String c s' =>
      if is_continuation c then String c (take_chars n s')
      else
        match n with
        | O => EmptyString
        | S n' => String c (take_chars n' s')
        end
  end.

(** [len(s)]: the number of characters of [s]. *)
Fixpoint char_count (s : string) : nat :=
  match s with
  | EmptyString => O
  | String c s' =>
      if is_continuation c then char_count s' else S (char_count s')
  end.

(** [s[:80]] *)
Definition first80 (s : string) : string := take_chars 80 s.

(** Lines 34-58. Nothing outside the inner [try] raises, so the outer
    handler has nothing to catch. *)
Definition test_database (env : gmap string string) (db : option handle)
  : diagnostic :=
  match db with
  | Some h =>
      let url := if truthy (env !! "DATABASE_URL")
                 then "✅ Set" else "❌ Not Set" in
      let name := default "❌ Unknown" (handle_name h) in
      match handle_collection_names h with
      | Listed names =>
          {| diag_backend := "✅ Running";
             diag_database := "✅ Connected & Working";
             diag_database_url := Some url;
             diag_database_name := Some name;
             diag_connection_status := "Connected";
             diag_collections := firstn 10 names |}
      | ListingFailed message =>
          {| diag_backend := "✅ Running";
             diag_database := "⚠️ Connected but Error: " +:+ first80 message;
             diag_database_url := Some url;
             diag_database_name := Some name;
             diag_connection_status := "Connected";
             diag_collections := [] |}
      end
  | None =>
      {| diag_backend := "✅ Running";
         diag_database := "⚠️ Available but not initialized";
         diag_database_url := None;
         diag_database_name := None;
         diag_connection_status := "Not Connected";
         diag_collections := [] |}
  end.

Definition incident (country type severity time description vector : string)
  : gmap string string :=
  <["country" := country]>
  (<["type" := type]>
  (<["severity" := severity]>
  (<["time" := time]>
  (<["description" := description]>
  (<["mitre_attack_vector" := vector]> ∅))))).

(** Lines 145-161; [now] is [now.isoformat()]. *)
Definition incidents (now : string) : list (gmap string string) :=
  [ incident "US" "DDoS" "High" now
             "Large-scale DDoS on hosting provider." "T1498";
    incident "DE" "Malware" "Medium" now
             "Emotet activity resurgence." "T1204";
    incident "IN" "Phishing" "Low" now
             "Targeted phishing campaign detected." "T1566" ].

(** *** The [Incident] schema *)

Record Incident : Type := {
  incident_country : string;
  incident_type : string;
  incident_severity : string;
  incident_time : string;
  incident_description : option string;
  incident_mitre_attack_vector : option string
}.

Record IncidentArgs : Type := {
  i_country : option string;
  i_type : option string;
  i_severity : option string;
  i_time : option string;
  i_description : option string;
  i_mitre_attack_vector : option string
}.

Definition severities : list string := ["Low"; "Medium"; "High"; "Critical"].

Section IncidentSchema.
(** pydantic's [datetime] parser: the parsed instant of a well-formed
    input, [None] for any other string. *)
Variable parse_datetime : string → option string.

Definition datetime_field (field : string) (v : option string) : list string :=
  match v with
  | Some s =>
      match parse_datetime s with
      | Some _ => []
      | None => [field]
      end
  | None => []
  end.

Definition Incident_errors (a : IncidentArgs) : list string :=
  required "country" (i_country a) ++
  required "type" (i_type a) ++
  required "severity" (i_severity a) ++
  literal "severity" severities (i_severity a) ++
  required "time" (i_time a) ++
  datetime_field "time" (i_time a).

Definition Incident_new (a : IncidentArgs) : outcome Incident :=
  match Incident_errors a with
  | [] =>
      Returned {|
        incident_country := default "" (i_country a);
        incident_type := default "" (i_type a);
        incident_severity := default "" (i_severity a);
        incident_time := default "" (i_time a ≫= parse_datetime);
        incident_description := i_description a;
        incident_mitre_attack_vector := i_mitre_attack_vector a
      |}
  | errs => Raised (ValidationError "Incident" errs)
  end.
End IncidentSchema.

(** The keyword arguments a dict spreads into when it is passed to
    [Incident] with a double star. *)
Definition Incident_kwargs (d : gmap string string) : IncidentArgs := {|
  i_country := d !! "country";
  i_type := d !! "type";
  i_severity := d !! "severity";
  i_time := d !! "time";
  i_description := d !! "description";
  i_mitre_attack_vector := d !! "mitre_attack_vector"
|}.

(** ** Vocabulary of the statements *)

Fixpoint lowercase (s : string) : string :=
  match s with
  | EmptyString => EmptyString
  | String c s' => String (to_lower c) (lowercase s')
  end.

(** [q] occurs in [s] as a substring, letter case apart. *)
Definition contains_ci (q s : string) : Prop :=
  ∃ pre mid post, s = pre +:+ mid +:+ post ∧ lowercase mid = lowercase q.

(** No character of [q] is a metacharacter of regular expressions. *)
Definition plain (q : string) : Prop :=
  Forall (λ c, is_metachar c = false) (String.list_ascii_of_string q).

(** The record keeps no list under the field. *)
Definition scalar_field (k : string) (r : stored) : Prop :=
  ∀ l, fields r !! k ≠ Some (VList l).

(** The record keeps a string under the field, or nothing. *)
Definition text_field (k : string) (r : stored) : Prop :=
  fields r !! k = None ∨ ∃ s, fields r !! k = Some (VStr s).

(** The record keeps a natural number under ["popularity"], or
    nothing. *)
Definition natural_popularity (r : stored) : Prop :=
  fields r !! "popularity" = None ∨
  ∃ n, 0 ≤ n ∧ fields r !! "popularity" = Some (VInt n).

(** What the name filter of the spec keeps: a name that contains [q]. *)
Definition name_contains (q : string) (r : stored) : Prop :=
  ∃ n, fields r !! "name" = Some (VStr n) ∧ contains_ci q n.

(** What the category filter keeps: the category, exactly. *)
Definition category_is (c : string) (r : stored) : Prop :=
  fields r !! "category" = Some (VStr c).

(** Both filters together; a parameter left out, or empty, filters
    nothing. *)
Definition kept (q category : option string) (r : stored) : Prop :=
  (truthy q = true → name_contains (default "" q) r) ∧
  (truthy category = true → category_is (default "" category) r).

(** The popularity a response record is sorted by: 0 when missing. *)
Definition popularity_of (t : dict) : Z :=
  match t !! "popularity" with
  | Some (VInt z) => z
  | _ => 0
  end.

(** Beginner(0) < Intermediate(1) < Advanced(2); anything else is 0. *)
Definition rank (s : string) : Z :=
  if String.eqb s "Intermediate" then 1
  else if String.eqb s "Advanced" then 2
  else 0.

Definition rank_of (t : dict) : Z :=
  match t !! "difficulty" with
  | Some (VStr s) => rank s
  | _ => 0
  end.

(** The category a response record is sorted by: empty when missing. *)
Definition category_of (t : dict) : string :=
  match t !! "category" with
  | Some (VStr s) => s
  | _ => ""
  end.

Definition recognized_sort (sort : option string) : Prop :=
  sort = Some "popularity" ∨ sort = Some "difficulty" ∨ sort = Some "category".

(** The same records in the same relative order within each class of
    [f]. *)
Definition stable_on {A B} `{EqDecision B} (f : A → B) (before after : list A) : Prop :=
  ∀ b, List.filter (λ x, bool_decide (f x = b)) after =
       List.filter (λ x, bool_decide (f x = b)) before.

(** The call raised pydantic's [ValidationError] for the model. *)
Definition raises_validation {A} (model : string) (o : outcome A) : Prop :=
  ∃ errs, o = Raised (ValidationError model errs).

(** The constraints [schemas.py] puts on the arguments of [Tool]. *)
Definition Tool_constraints (parse_http_url : string → option string)
    (a : ToolArgs) : Prop :=
  a_name a ≠ None ∧
  a_description a ≠ None ∧
  (∃ c, a_category a = Some c ∧ c ∈ tool_categories) ∧
  (∀ p, a_popularity a = Some p → 0 ≤ p) ∧
  (∀ s, a_difficulty a = Some s → s ∈ difficulty_levels) ∧
  (∀ u, a_link a = Some u → parse_http_url u ≠ None).

(** The constraints on the arguments of [Lab]. *)
Definition Lab_constraints (parse_http_url : string → option string)
    (a : LabArgs) : Prop :=
  l_title a ≠ None ∧
  (∃ c, l_category a = Some c ∧ c ∈ difficulty_levels) ∧
  (∃ m, l_estimated_minutes a = Some m ∧ 5 ≤ m ≤ 240) ∧
  (∀ u, l_link a = Some u → parse_http_url u ≠ None) ∧
  (∀ n, l_score a = Some n → 0 ≤ n).

(** A database that was never written to. *)
Definition empty_database : database := Database ∅ 0.

(** Four stored tools: two share a popularity, one has none. *)
Definition example_tools : list stored :=
  [ Stored 0 (<["name" := VStr "Nmap"]>
             (<["category" := VStr "Reconnaissance"]>
             (<["popularity" := VInt 95]>
             (<["difficulty" := VStr "Intermediate"]> ∅))));
    Stored 1 (<["name" := VStr "Wireshark"]>
             (<["category" := VStr "Forensics"]>
             (<["popularity" := VInt 90]>
             (<["difficulty" := VStr "Beginner"]> ∅))));
    Stored 2 (<["name" := VStr "Aircrack-ng"]>
             (<["category" := VStr "Wireless"]>
             (<["difficulty" := VStr "Advanced"]> ∅)));
    Stored 3 (<["name" := VStr "Burp Suite"]>
             (<["category" := VStr "Web Security"]>
             (<["popularity" := VInt 95]> ∅))) ].

Definition example_database : database :=
  Database {["tool" := example_tools]} 4.

(** An environment with a key, and a provider answer with two results:
    one without a title, one without a ["link"]. *)
Definition example_env : gmap string string :=
  {["NEWSDATA_API_KEY" := "k3y"]}.

Definition example_results : list json :=
  [ JObj [("link", JStr "https://news.example/a");
          ("url", JStr "https://news.example/a2");
          ("source_id", JStr "wire")];
    JObj [("title", JStr "Patch day");
          ("url", JStr "https://news.example/b")] ].

Definition example_feed : json :=
  JObj [("status", JStr "success"); ("results", JArr example_results)].

(** ** Auxiliary notions of the proofs *)

(** The documents the store keeps for the sample courses and the
    sample lab. *)
Definition ethical_hacking_doc : dict :=
  <["title" := VStr "Ethical Hacking Basics"]>
  (<["thumbnail" := VNone]>
  (<["difficulty" := VStr "Beginner"]>
  (<["slug" := VStr "ethical-hacking-basics"]>
  (<["description" := VStr "Kickstart into ethical hacking."]> ∅)))).

Definition linux_doc : dict :=
  <["title" := VStr "Linux for Hackers"]>
  (<["thumbnail" := VNone]>
  (<["difficulty" := VStr "Beginner"]>
  (<["slug" := VStr "linux-for-hackers"]>
  (<["description" := VNone]> ∅)))).

Definition recon_lab_doc : dict :=
  <["title" := VStr "Intro Recon Lab"]>
  (<["category" := VStr "Beginner"]>
  (<["estimated_minutes" := VInt 20]>
  (<["link" := VNone]>
  (<["score" := VInt 0]> ∅)))).

(** The guarded blocks of [seed] for courses and labs, as state
    transformers. *)
Definition seed_courses (d : database) : database :=
  if Nat.eqb (count_documents d "course") 0
  then insert_one "course" linux_doc (insert_one "course" ethical_hacking_doc d)
  else d.

Definition seed_labs (d : database) : database :=
  if Nat.eqb (count_documents d "lab") 0
  then insert_one "lab" recon_lab_doc d
  else d.

(** Python's [<] is defined within one type of key. *)
Inductive kind : Type := KInt | KStr | KList.

Definition kind_of (v : value) : option kind :=
  match v with
  | VNone => None
  | VInt _ => Some KInt
  | VStr _ => Some KStr
  | VList _ => Some KList
  end.

(** The boolean [py_lt] computes when it does not raise. *)
Definition value_ltb (a b : value) : bool :=
  match a, b with
  | VInt x, VInt y => Z.ltb x y
  | VStr x, VStr y => String.ltb x y
  | VList x, VList y => list_lt x y
  | _, _ => false
  end.

(** [a] may stand before [b]. *)
Definition key_le {A} (a b : value * A) : Prop := value_ltb (fst b) (fst a) = false.

Definition key_filter {A} (v : value) (l : list (value * A)) : list (value * A) :=
  List.filter (λ y, bool_decide (fst y = v)) l.

Fixpoint insert_pure {A} (x : value * A) (l : list (value * A)) : list (value * A) :=
  match l with
  | [] => [x]
  | y :: l' =>
      if value_ltb (fst y) (fst x) then y :: insert_pure x l'
      else x :: y :: l'
  end.

Fixpoint sort_pure {A} (l : list (value * A)) : list (value * A) :=
  match l with
  | [] => []
  | x :: l' => insert_pure x (sort_pure l')
  end.

(** Each element paired with its key. *)
Definition decorate {A} (keyf : A → value) (l : list A) : list (value * A) :=
  map (λ x, (keyf x, x)) l.

Definition decorated {A} (keyf : A → value) (p : value * A) : Prop :=
  fst p = keyf (snd p).

(** The order [list.sort] leaves between neighbours. *)
Definition sorted_by {A} (keyf : A → value) (reverse : bool) (a b : A) : Prop :=
  if reverse then value_ltb (keyf a) (keyf b) = false
  else value_ltb (keyf b) (keyf a) = false.

(** The pattern of a [q] without metacharacters. *)
Definition literal_atoms (q : string) : list atom :=
  map Lit (String.list_ascii_of_string q).

(** The test [find] applies for the filter of a request whose [q] is
    plain text. *)
Definition keep_test (q category : option string) (r : stored) : bool :=
  (if truthy q
   then regex_matcher true (literal_atoms (default "" q)) (fields r !! "name")
   else true) &&
  (if truthy category
   then equals_matcher (VStr (default "" category)) (fields r !! "category")
   else true).

(** What [news_item_of] builds is usable. *)
Definition usable (a : json) : Prop := ∃ item, news_item_of a = Returned item.

(** A handle whose listing fails with a long message, and one that
    lists twelve collections. *)
Definition long_message : string :=
  "ServerSelectionTimeoutError: localhost:27017: [Errno 111] Connection refused, Timeout: 30s, Topology Description: unknown".

Definition failing_handle : handle :=
  {| handle_name := Some "appdb";
     handle_collection_names := ListingFailed long_message |}.

(** The value a parsed object holds under a key, [None] when it has
    none. *)
Definition member (members : list (string * json)) (k : string) : json :=
  default JNull (obj_lookup k members).

(** A provider result with an empty image link and an empty date. *)
Definition example_article : list (string * json) :=
  [("title", JStr "Advisory"); ("link", JStr "https://news.example/c");
   ("image_url", JStr ""); ("pubDate", JStr ""); ("description", JStr "")].

(** The item [news_item_of] makes of [example_article]. *)
Definition example_item : NewsItem := {|
  title := "Advisory";
  description := Some "";
  url := "https://news.example/c";
  image_url := None;
  source := None;
  published_at := Some ""
|}.

(** A provider answer whose third result is not an object. *)
Definition broken_feed : json :=
  JObj [("results", JArr (example_results ++ JStr "oops" :: example_results))].

#[global] Instance kind_eq_dec : EqDecision kind.
Proof. solve_decision. Defined.

(** Keys that [<] can order: at most one key, or keys of one type. *)
Definition comparable (keys : list value) : Prop :=
  (length keys ≤ 1)%nat ∨ ∃ k, Forall (λ v, kind_of v = Some k) keys.

(** The sort keys [list_tools] computes from a record. *)
Definition popularity_sort_key (t : dict) : value := dict_get t "popularity" (VInt 0).
Definition category_sort_key (t : dict) : value := dict_get t "category" (VStr "").

(** The record keeps a list under ["difficulty"]. *)
Definition list_difficulty (t : dict) : Prop :=
  ∃ l, t !! "difficulty" = Some (VList l).

(** Two stored tools whose popularities are of different types, the
    second with a list for a difficulty. *)
Definition mixed_tools : list stored :=
  [ Stored 0 (<["name" := VStr "Nmap"]> (<["popularity" := VInt 95]> ∅));
    Stored 1 (<["name" := VStr "Hydra"]>
             (<["popularity" := VStr "high"]>
             (<["category" := VInt 7]>
             (<["difficulty" := VList ["Advanced"]]> ∅)))) ].

Definition mixed_database : database :=
  Database {["tool" := mixed_tools]} 2.

(** The rank [list_tools] sorts by when the difficulty is not a list. *)
Definition difficulty_sort_key (t : dict) : value :=
  match dict_get t "difficulty" (VStr "Beginner") with
  | VStr s => VInt (default 0 (diff_order !! s))
  | _ => VInt 0
  end.

(** ** Outcomes: basic facts *)

Lemma traverse_total {A B} (f : A → outcome B) (g : A → B) (l : list A) :
  Forall (λ x, f x = Returned (g x)) l → traverse f l = Returned (map g l).
Proof.
  induction 1 as [|x l Hx _ IH]; simpl; [done|].
  rewrite Hx. simpl. rewrite IH. done.
Qed.

(** ** Storage unavailable *)

Section Unavailable.
Variable parse_http_url : string → option string.

Lemma seed_without_db :
  seed parse_http_url None =
    (Raised (HTTPException 500 "500: Database not configured"), None).
Proof. reflexivity. Qed.
End Unavailable.

(** C7. With no storage connection [POST /seed] fails with status 500,
    and [GET /tools] and [GET /courses] answer with the empty list. *)
Theorem storage_unavailable (parse_http_url : string → option string)
    (q category sort : option string) :
  (∃ detail, seed parse_http_url None =
               (Raised (HTTPException 500 detail), None)) ∧
  list_tools None q category sort = Returned [] ∧
  list_courses None = Returned [].
Proof.
  split; [|done].
  eexists. apply seed_without_db.
Qed.

(** C10. An empty [q] or an empty [category] is handled like a
    parameter that was not sent: the handler tests truthiness. *)
Theorem empty_parameter_is_absent (db : option database)
    (q category sort : option string) :
  list_tools db (Some "") category sort = list_tools db None category sort ∧
  list_tools db q (Some "") sort = list_tools db q None sort.
Proof. split; reflexivity. Qed.

(** ** Writes to the store *)

Lemma collection_insert_one (name name' : string) (record : dict) (d : database) :
  collection (insert_one name record d) name' =
    if decide (name = name')
    then collection d name ++ [Stored (next_oid d) record]
    else collection d name'.
Proof.
  unfold collection at 1. simpl. rewrite lookup_insert.
  destruct (decide (name = name')); done.
Qed.

Lemma collection_insert_one_eq (name : string) (record : dict) (d : database) :
  collection (insert_one name record d) name =
    collection d name ++ [Stored (next_oid d) record].
Proof. rewrite collection_insert_one. by rewrite decide_True. Qed.

Lemma collection_insert_one_ne (name name' : string) (record : dict) (d : database) :
  name ≠ name' →
  collection (insert_one name record d) name' = collection d name'.
Proof. intros. rewrite collection_insert_one. by rewrite decide_False. Qed.

Lemma encode_plain_record (record : dict) :
  encode (plain_record record) = Returned record.
Proof.
  unfold encode, plain_record. rewrite decide_True.
  - f_equal. apply map_eq. intros k.
    rewrite lookup_omap, lookup_fmap. by destruct (record !! k).
  - apply map_Forall_lookup. intros k x. rewrite lookup_fmap.
    destruct (record !! k); simpl; intros [= <-]. by eexists.
Qed.

Lemma encode_url_object (record : gmap string dumped) (k u : string) :
  record !! k = Some (UrlObject u) → encode record = Raised InvalidDocument.
Proof.
  intros Hk. unfold encode. rewrite decide_False; [done|].
  intros Hall. destruct (map_Forall_lookup_1 _ _ _ _ Hall Hk) as [v Hv].
  discriminate.
Qed.

Lemma create_document_run (name : string) (record : dict) (d : database) :
  create_document name (plain_record record) (Some d) =
    (Returned (oid_str (next_oid d)), Some (insert_one name record d)).
Proof. unfold create_document. by rewrite encode_plain_record. Qed.

Lemma subscribe_run (sub : Subscriber) (d : database) :
  subscribe sub (Some d) =
    (Returned (status_body "ok"),
     Some (insert_one "subscriber" (Subscriber_dump sub) d)).
Proof.
  unfold subscribe, mbind, action_bind, get_db.
  by rewrite create_document_run.
Qed.

Lemma contact_run (msg : ContactMessage) (d : database) :
  contact msg (Some d) =
    (Returned (status_body "ok"),
     Some (insert_one "contactmessage" (ContactMessage_dump msg) d)).
Proof.
  unfold contact, mbind, action_bind, get_db.
  by rewrite create_document_run.
Qed.

(** C5. [POST /subscribe] and [POST /contact]: without storage the
    answer is [{"status": "disabled"}] and the state is untouched; with
    storage the answer is [{"status": "ok"}], the posted record goes
    last in its own collection and every other collection is as it
    was. *)
Theorem subscribe_contact (sub : Subscriber) (msg : ContactMessage) :
  subscribe sub None = (Returned (status_body "disabled"), None) ∧
  contact msg None = (Returned (status_body "disabled"), None) ∧
  ∀ d : database,
    (∃ d',
        subscribe sub (Some d) = (Returned (status_body "ok"), Some d') ∧
        collection d' "subscriber" =
          collection d "subscriber" ++
            [Stored (next_oid d) (Subscriber_dump sub)] ∧
        ∀ name, name ≠ "subscriber" → collection d' name = collection d name) ∧
    (∃ d',
        contact msg (Some d) = (Returned (status_body "ok"), Some d') ∧
        collection d' "contactmessage" =
          collection d "contactmessage" ++
            [Stored (next_oid d) (ContactMessage_dump msg)] ∧
        ∀ name, name ≠ "contactmessage" → collection d' name = collection d name).
Proof.
  split; [reflexivity|]. split; [reflexivity|].
  intros d. split.
  - exists (insert_one "subscriber" (Subscriber_dump sub) d).
    split; [apply subscribe_run|]. split.
    + apply collection_insert_one_eq.
    + intros name Hne. apply collection_insert_one_ne. congruence.
  - exists (insert_one "contactmessage" (ContactMessage_dump msg) d).
    split; [apply contact_run|]. split.
    + apply collection_insert_one_eq.
    + intros name Hne. apply collection_insert_one_ne. congruence.
Qed.

(** ** Seeding *)

Section SeedFacts.
Variable parse_http_url : string → option string.

Lemma Tool_dump_link (t : Tool) (u : string) :
  tool_link t = Some u → encode (Tool_dump t) = Raised InvalidDocument.
Proof.
  intros Hu. apply (encode_url_object _ "link" u).
  unfold Tool_dump. rewrite !lookup_insert_ne by done.
  rewrite lookup_insert_eq. by rewrite Hu.
Qed.

Lemma nmap_has_link (t : Tool) :
  Tool_new parse_http_url nmap_args = Returned t → ∃ u, tool_link t = Some u.
Proof.
  unfold Tool_new, Tool_errors, http_url. simpl.
  destruct (parse_http_url "https://nmap.org") as [u|] eqn:E; simpl; [|done].
  intros [= <-]. simpl. eauto.
Qed.

(** The first insert of the tool block raises and stores nothing. *)
Lemma create_nmap_raises (d : database) :
  ∃ e, create_tool parse_http_url nmap_args (Some d) = (Raised e, Some d).
Proof.
  unfold create_tool, lift, mbind, action_bind, create_document.
  destruct (Tool_new parse_http_url nmap_args) as [t|e|] eqn:Ht.
  - destruct (nmap_has_link t Ht) as [u Hu].
    rewrite (Tool_dump_link t u Hu). eauto.
  - eauto.
  - unfold Tool_new in Ht. by destruct (Tool_errors _ _).
Qed.

Lemma create_ethical_hacking (d : database) :
  create_course parse_http_url ethical_hacking_args (Some d) =
    (Returned tt, Some (insert_one "course" ethical_hacking_doc d)).
Proof.
  unfold create_course, lift, mbind, action_bind, create_document.
  change (Course_new parse_http_url ethical_hacking_args) with
    (Returned {| course_title := "Ethical Hacking Basics";
                 course_thumbnail := None;
                 course_difficulty := "Beginner";
                 course_slug := "ethical-hacking-basics";
                 course_description := Some "Kickstart into ethical hacking." |}).
  cbv beta iota.
  replace (encode (Course_dump _)) with (Returned ethical_hacking_doc)
    by (vm_compute; reflexivity).
  reflexivity.
Qed.

Lemma create_linux (d : database) :
  create_course parse_http_url linux_args (Some d) =
    (Returned tt, Some (insert_one "course" linux_doc d)).
Proof.
  unfold create_course, lift, mbind, action_bind, create_document.
  change (Course_new parse_http_url linux_args) with
    (Returned {| course_title := "Linux for Hackers";
                 course_thumbnail := None;
                 course_difficulty := "Beginner";
                 course_slug := "linux-for-hackers";
                 course_description := None |}).
  cbv beta iota.
  replace (encode (Course_dump _)) with (Returned linux_doc)
    by (vm_compute; reflexivity).
  reflexivity.
Qed.

Lemma create_recon_lab (d : database) :
  create_lab parse_http_url recon_lab_args (Some d) =
    (Returned tt, Some (insert_one "lab" recon_lab_doc d)).
Proof.
  unfold create_lab, lift, mbind, action_bind, create_document.
  change (Lab_new parse_http_url recon_lab_args) with
    (Returned {| lab_title := "Intro Recon Lab";
                 lab_category := "Beginner";
                 lab_estimated_minutes := 20;
                 lab_link := None;
                 lab_score := 0 |}).
  cbv beta iota.
  replace (encode (Lab_dump _)) with (Returned recon_lab_doc)
    by (vm_compute; reflexivity).
  reflexivity.
Qed.

(** With no tool stored, [seed] stops at the first insert. *)
Lemma seed_run_without_tools (d : database) :
  count_documents d "tool" = 0%nat →
  ∃ detail,
    seed parse_http_url (Some d) = (Raised (HTTPException 500 detail), Some d).
Proof.
  intros He.
  destruct (create_nmap_raises d) as [e Hraise].
  unfold seed, try_except, mbind, action_bind, get_db, when, is_empty. simpl.
  rewrite He. simpl. rewrite Hraise. simpl. eauto.
Qed.

(** With a tool stored, [seed] fills the two other collections. *)
Lemma seed_run_with_tools (d : database) :
  count_documents d "tool" ≠ 0%nat →
  seed parse_http_url (Some d) =
    (Returned (status_body "ok"), Some (seed_labs (seed_courses d))).
Proof.
  intros Hne. apply Nat.eqb_neq in Hne.
  unfold seed, try_except, mbind, action_bind, get_db, when, is_empty. simpl.
  rewrite Hne. simpl. unfold seed_labs, seed_courses.
  destruct (Nat.eqb (count_documents d "course") 0);
    [rewrite create_ethical_hacking, create_linux|]; simpl;
  match goal with
  | |- context [Nat.eqb (count_documents ?x "lab") 0] =>
      destruct (Nat.eqb (count_documents x "lab") 0)
  end;
    try rewrite create_recon_lab; reflexivity.
Qed.
End SeedFacts.

Lemma count_empty (d : database) (name : string) :
  count_documents d name = 0%nat ↔ collection d name = [].
Proof. unfold count_documents. by destruct (collection d name). Qed.

Lemma collection_seed_courses (d : database) (name : string) :
  name ≠ "course" → collection (seed_courses d) name = collection d name.
Proof.
  intros Hne. unfold seed_courses. destruct (Nat.eqb _ _); [|done].
  rewrite !collection_insert_one_ne; done.
Qed.

Lemma collection_seed_labs (d : database) (name : string) :
  name ≠ "lab" → collection (seed_labs d) name = collection d name.
Proof.
  intros Hne. unfold seed_labs. destruct (Nat.eqb _ _); [|done].
  rewrite !collection_insert_one_ne; done.
Qed.

Lemma seed_courses_id (d : database) :
  count_documents d "course" ≠ 0%nat → seed_courses d = d.
Proof. intros H. unfold seed_courses. by apply Nat.eqb_neq in H as ->. Qed.

Lemma seed_labs_id (d : database) :
  count_documents d "lab" ≠ 0%nat → seed_labs d = d.
Proof. intros H. unfold seed_labs. by apply Nat.eqb_neq in H as ->. Qed.

Lemma count_seed_courses (d : database) :
  count_documents (seed_courses d) "course" ≠ 0%nat.
Proof.
  unfold seed_courses. destruct (Nat.eqb (count_documents d "course") 0) eqn:E.
  - unfold count_documents. rewrite collection_insert_one_eq, length_app. simpl. lia.
  - by apply Nat.eqb_neq.
Qed.

Lemma count_seed_labs (d : database) :
  count_documents (seed_labs d) "lab" ≠ 0%nat.
Proof.
  unfold seed_labs. destruct (Nat.eqb (count_documents d "lab") 0) eqn:E.
  - unfold count_documents. rewrite collection_insert_one_eq, length_app. simpl. lia.
  - by apply Nat.eqb_neq.
Qed.

Lemma seeded_fixpoint (d : database) :
  seed_labs (seed_courses (seed_labs (seed_courses d))) =
    seed_labs (seed_courses d).
Proof.
  rewrite (seed_courses_id (seed_labs (seed_courses d))).
  - apply seed_labs_id, count_seed_labs.
  - unfold count_documents. rewrite collection_seed_labs by done.
    apply count_seed_courses.
Qed.

Lemma seeded_guard (d : database) (name : string) :
  collection d name ≠ [] →
  collection (seed_labs (seed_courses d)) name = collection d name.
Proof.
  intros Hne.
  assert (Hcount : count_documents d name ≠ 0%nat) by by rewrite count_empty.
  destruct (decide (name = "lab")) as [->|Hl].
  - rewrite seed_labs_id.
    + by rewrite collection_seed_courses.
    + unfold count_documents. by rewrite collection_seed_courses.
  - rewrite collection_seed_labs by done.
    destruct (decide (name = "course")) as [->|Hc].
    + by rewrite seed_courses_id.
    + by rewrite collection_seed_courses.
Qed.

Lemma seeded_prefix (d : database) (name : string) :
  collection d name `prefix_of` collection (seed_labs (seed_courses d)) name.
Proof.
  assert (Hc : collection d name `prefix_of` collection (seed_courses d) name).
  { unfold seed_courses. destruct (Nat.eqb _ _); [|done].
    rewrite !collection_insert_one. repeat case_decide; subst;
      rewrite ?collection_insert_one_eq, ?collection_insert_one_ne by done;
      try done.
    rewrite <- app_assoc. by apply prefix_app_r. }
  etrans; [exact Hc|].
  unfold seed_labs. destruct (Nat.eqb _ _); [|done].
  rewrite collection_insert_one. case_decide; [subst|done].
  by apply prefix_app_r.
Qed.

(** C6, at the input where the code departs from it. On a store whose
    tool collection is empty, [POST /seed] raises HTTP 500 and leaves
    the store as it was: the dumped [Tool] holds its link as a [Url]
    object, which the store cannot encode. No sample record is
    inserted there, neither a tool nor, the run being over, a course or
    a lab. *)
Theorem seed_fails_without_tools (parse_http_url : string → option string)
    (d : database) :
  collection d "tool" = [] →
  ∃ detail,
    seed parse_http_url (Some d) = (Raised (HTTPException 500 detail), Some d).
Proof.
  intros He. apply seed_run_without_tools. by apply count_empty.
Qed.

Lemma seed_fails_without_tools_witness :
  ∃ detail,
    seed Some (Some empty_database) =
      (Raised (HTTPException 500 detail), Some empty_database).
Proof.
  apply (seed_fails_without_tools Some empty_database). reflexivity.
Defined.

Example seed_on_fresh_store :
  seed Some (Some empty_database) =
    (Raised (HTTPException 500 "cannot encode object"), Some empty_database).
Proof. vm_compute. reflexivity. Qed.

(** ** Schema validation *)

Lemma allowed_spec (s : string) (allowed : list string) :
  existsb (String.eqb s) allowed = true ↔ s ∈ allowed.
Proof.
  rewrite existsb_exists, list_elem_of_In. split.
  - intros (x & Hx & Heq). by apply String.eqb_eq in Heq as ->.
  - intros Hin. exists s. split; [done | apply String.eqb_refl].
Qed.

Lemma required_nil {T} (field : string) (v : option T) :
  required field v = [] ↔ v ≠ None.
Proof. destruct v; simpl; split; done. Qed.

Lemma literal_nil (field : string) (allowed : list string) (v : option string) :
  literal field allowed v = [] ↔ ∀ s, v = Some s → s ∈ allowed.
Proof.
  destruct v as [s|]; simpl; [|split; done].
  destruct (existsb (String.eqb s) allowed) eqn:E.
  - apply allowed_spec in E. split; [intros _ ? [= <-]; done | done].
  - split; [done|]. intros H. specialize (H s eq_refl).
    apply allowed_spec in H. congruence.
Qed.

Lemma ge_nil (field : string) (lo : Z) (v : option Z) :
  ge field lo v = [] ↔ ∀ z, v = Some z → lo ≤ z.
Proof.
  destruct v as [z|]; simpl; [|split; done].
  destruct (Z.leb_spec lo z) as [Hle|Hgt].
  - split; [intros _ ? [= <-]; done | done].
  - split; [done|]. intros H. specialize (H z eq_refl). lia.
Qed.

Lemma le_nil (field : string) (hi : Z) (v : option Z) :
  le field hi v = [] ↔ ∀ z, v = Some z → z ≤ hi.
Proof.
  destruct v as [z|]; simpl; [|split; done].
  destruct (Z.leb_spec z hi) as [Hle|Hgt].
  - split; [intros _ ? [= <-]; done | done].
  - split; [done|]. intros H. specialize (H z eq_refl). lia.
Qed.

Lemma http_url_nil (parse_http_url : string → option string)
    (field : string) (v : option string) :
  http_url parse_http_url field v = [] ↔
  ∀ u, v = Some u → parse_http_url u ≠ None.
Proof.
  destruct v as [u|]; simpl; [|split; done].
  destruct (parse_http_url u) eqn:E.
  - split; [intros _ ? [= <-]; congruence | done].
  - split; [done|]. intros H. by specialize (H u eq_refl).
Qed.

Lemma Tool_errors_nil (parse_http_url : string → option string) (a : ToolArgs) :
  Tool_errors parse_http_url a = [] ↔ Tool_constraints parse_http_url a.
Proof.
  unfold Tool_errors, Tool_constraints.
  rewrite !app_nil, !required_nil, !literal_nil, ge_nil, http_url_nil.
  split.
  - intros (? & ? & Hc & Hl & ? & ? & ?). repeat split; try done.
    destruct (a_category a) as [c|]; [|done]. exists c. eauto.
  - intros (? & ? & (c & Hc & Hin) & ? & ? & ?). repeat split; try done.
    + congruence.
    + intros s. rewrite Hc. by intros [= <-].
Qed.

Lemma Lab_errors_nil (parse_http_url : string → option string) (a : LabArgs) :
  Lab_errors parse_http_url a = [] ↔ Lab_constraints parse_http_url a.
Proof.
  unfold Lab_errors, Lab_constraints.
  rewrite !app_nil, !required_nil, !literal_nil, !ge_nil, le_nil, http_url_nil.
  split.
  - intros (? & Hc & Hl & Hm & Hlo & Hhi & ? & ?). repeat split; try done.
    + destruct (l_category a) as [c|]; [|done]. exists c. eauto.
    + destruct (l_estimated_minutes a) as [m|]; [|done]. exists m.
      split; [done|]. split; eauto.
  - intros (? & (c & Hc & Hin) & (m & Hm & Hlo & Hhi) & ? & ?).
    repeat split; try done; try congruence.
    all: intros x; rewrite ?Hc, ?Hm; intros [= <-]; done.
Qed.

Lemma Tool_new_raises (parse_http_url : string → option string) (a : ToolArgs) :
  raises_validation "Tool" (Tool_new parse_http_url a) ↔
  Tool_errors parse_http_url a ≠ [].
Proof.
  unfold raises_validation, Tool_new.
  destruct (Tool_errors parse_http_url a) as [|e errs].
  - split; [intros [? ?]; done | done].
  - split; [done | eauto].
Qed.

Lemma Lab_new_raises (parse_http_url : string → option string) (a : LabArgs) :
  raises_validation "Lab" (Lab_new parse_http_url a) ↔
  Lab_errors parse_http_url a ≠ [].
Proof.
  unfold raises_validation, Lab_new.
  destruct (Lab_errors parse_http_url a) as [|e errs].
  - split; [intros [? ?]; done | done].
  - split; [done | eauto].
Qed.

Lemma Tool_new_returns (parse_http_url : string → option string) (a : ToolArgs) :
  (∃ t, Tool_new parse_http_url a = Returned t) ↔
  Tool_errors parse_http_url a = [].
Proof.
  unfold Tool_new.
  destruct (Tool_errors parse_http_url a) as [|e errs].
  - split; [done | eauto].
  - split; [intros [? ?]; done | done].
Qed.

Lemma Lab_new_returns (parse_http_url : string → option string) (a : LabArgs) :
  (∃ l, Lab_new parse_http_url a = Returned l) ↔
  Lab_errors parse_http_url a = [].
Proof.
  unfold Lab_new.
  destruct (Lab_errors parse_http_url a) as [|e errs].
  - split; [done | eauto].
  - split; [intros [? ?]; done | done].
Qed.

(** C4. Constructing a [Tool] or a [Lab] raises [ValidationError]
    exactly when the arguments break a declared constraint, and returns
    the record otherwise. In particular a negative popularity, a
    category or difficulty outside its set, an [estimated_minutes]
    outside 5..240 and a link that does not parse are each refused,
    while a link left out is never the reason for a refusal. *)
Theorem schema_validation (parse_http_url : string → option string) :
  (∀ a, raises_validation "Tool" (Tool_new parse_http_url a) ↔
        ¬ Tool_constraints parse_http_url a) ∧
  (∀ a, (∃ t, Tool_new parse_http_url a = Returned t) ↔
        Tool_constraints parse_http_url a) ∧
  (∀ a, raises_validation "Lab" (Lab_new parse_http_url a) ↔
        ¬ Lab_constraints parse_http_url a) ∧
  (∀ a, (∃ l, Lab_new parse_http_url a = Returned l) ↔
        Lab_constraints parse_http_url a) ∧
  (∀ a p, a_popularity a = Some p → p < 0 →
          raises_validation "Tool" (Tool_new parse_http_url a)) ∧
  (∀ a c, a_category a = Some c → c ∉ tool_categories →
          raises_validation "Tool" (Tool_new parse_http_url a)) ∧
  (∀ a s, a_difficulty a = Some s → s ∉ difficulty_levels →
          raises_validation "Tool" (Tool_new parse_http_url a)) ∧
  (∀ a m, l_estimated_minutes a = Some m → m < 5 ∨ 240 < m →
          raises_validation "Lab" (Lab_new parse_http_url a)) ∧
  (∀ a c, l_category a = Some c → c ∉ difficulty_levels →
          raises_validation "Lab" (Lab_new parse_http_url a)) ∧
  (∀ a u, a_link a = Some u → parse_http_url u = None →
          raises_validation "Tool" (Tool_new parse_http_url a)) ∧
  (∀ a u, l_link a = Some u → parse_http_url u = None →
          raises_validation "Lab" (Lab_new parse_http_url a)) ∧
  (∀ a, a_link a = None → http_url parse_http_url "link" (a_link a) = []) ∧
  (∀ a, l_link a = None → http_url parse_http_url "link" (l_link a) = []).
Proof.
  assert (HT : ∀ a, raises_validation "Tool" (Tool_new parse_http_url a) ↔
                    ¬ Tool_constraints parse_http_url a).
  { intros a. by rewrite Tool_new_raises, Tool_errors_nil. }
  assert (HL : ∀ a, raises_validation "Lab" (Lab_new parse_http_url a) ↔
                    ¬ Lab_constraints parse_http_url a).
  { intros a. by rewrite Lab_new_raises, Lab_errors_nil. }
  split; [done|].
  split; [intros a; by rewrite Tool_new_returns, Tool_errors_nil|].
  split; [done|].
  split; [intros a; by rewrite Lab_new_returns, Lab_errors_nil|].
  split.
  { intros a p Hp Hneg. apply HT. intros (_ & _ & _ & H & _).
    specialize (H p Hp). lia. }
  split.
  { intros a c Hc Hout. apply HT. intros (_ & _ & (c' & Hc' & Hin) & _).
    congruence. }
  split.
  { intros a s Hs Hout. apply HT. intros (_ & _ & _ & _ & H & _).
    by specialize (H s Hs). }
  split.
  { intros a m Hm Hout. apply HL. intros (_ & _ & (m' & Hm' & Hrange) & _).
    assert (m' = m) by congruence. lia. }
  split.
  { intros a c Hc Hout. apply HL. intros (_ & (c' & Hc' & Hin) & _).
    congruence. }
  split.
  { intros a u Hu Hbad. apply HT. intros (_ & _ & _ & _ & _ & H).
    by specialize (H u Hu). }
  split.
  { intros a u Hu Hbad. apply HL. intros (_ & _ & _ & H & _).
    by specialize (H u Hu). }
  split; intros a ->; reflexivity.
Qed.

(** ** Python's [<] restricted to one type of key *)

Lemma py_lt_same_kind (a b : value) (k : kind) :
  kind_of a = Some k → kind_of b = Some k → py_lt a b = Returned (value_ltb a b).
Proof. destruct a, b; simpl; intros; simplify_eq; done. Qed.

Lemma string_ltb_asym (x y : string) :
  String.ltb x y = true → String.ltb y x = false.
Proof.
  unfold String.ltb. rewrite (String.compare_antisym y x).
  destruct (String.compare x y); simpl; congruence.
Qed.

Lemma string_ltb_irrefl (x : string) : String.ltb x x = false.
Proof.
  destruct (String.ltb x x) eqn:E; [|done].
  by rewrite (string_ltb_asym _ _ E) in E.
Qed.

Lemma string_eqb_sym (x y : string) : String.eqb x y = String.eqb y x.
Proof.
  destruct (String.eqb_spec x y) as [->|Hne].
  - by rewrite String.eqb_refl.
  - symmetry. apply String.eqb_neq. congruence.
Qed.

Lemma list_lt_asym (a b : list string) : list_lt a b = true → list_lt b a = false.
Proof.
  revert b. induction a as [|x a IH]; intros [|y b]; simpl; try done.
  rewrite (string_eqb_sym y x).
  destruct (String.eqb x y); [apply IH | apply string_ltb_asym].
Qed.

Lemma value_ltb_asym (a b : value) : value_ltb a b = true → value_ltb b a = false.
Proof.
  destruct a, b; simpl; try done.
  - intros H. apply Z.ltb_lt in H. apply Z.ltb_ge. lia.
  - apply string_ltb_asym.
  - apply list_lt_asym.
Qed.

Lemma value_ltb_irrefl (a : value) : value_ltb a a = false.
Proof.
  destruct (value_ltb a a) eqn:E; [|done].
  by rewrite (value_ltb_asym _ _ E) in E.
Qed.

(** ** [list.sort] is a stable sort *)

Section SortFacts.
Context {A : Type}.

Lemma insert_pure_perm (x : value * A) (l : list (value * A)) :
  insert_pure x l ≡ₚ x :: l.
Proof.
  induction l as [|y l IH]; simpl; [done|].
  destruct (value_ltb (fst y) (fst x)); [|done].
  rewrite IH. apply Permutation_swap.
Qed.

Lemma sort_pure_perm (l : list (value * A)) : sort_pure l ≡ₚ l.
Proof.
  induction l as [|x l IH]; simpl; [done|].
  by rewrite insert_pure_perm, IH.
Qed.

Lemma insert_pure_hd (x y : value * A) (l : list (value * A)) :
  HdRel key_le y l → key_le y x → HdRel key_le y (insert_pure x l).
Proof.
  intros Hhd Hyx. destruct l as [|z l]; simpl; [by constructor|].
  destruct (value_ltb (fst z) (fst x)); constructor; [|done].
  by inversion Hhd.
Qed.

Lemma insert_pure_sorted (x : value * A) (l : list (value * A)) :
  Sorted key_le l → Sorted key_le (insert_pure x l).
Proof.
  induction 1 as [|y l Hs IH Hhd]; simpl; [by repeat constructor|].
  destruct (value_ltb (fst y) (fst x)) eqn:E.
  - constructor; [done|]. apply insert_pure_hd; [done|].
    unfold key_le. by apply value_ltb_asym.
  - constructor; [by constructor|]. by constructor.
Qed.

Lemma sort_pure_sorted (l : list (value * A)) : Sorted key_le (sort_pure l).
Proof.
  induction l as [|x l IH]; simpl; [constructor|].
  by apply insert_pure_sorted.
Qed.

Lemma insert_pure_stable (v : value) (x : value * A) (l : list (value * A)) :
  key_filter v (insert_pure x l) = key_filter v (x :: l).
Proof.
  induction l as [|y l IH]; [done|]. simpl.
  destruct (value_ltb (fst y) (fst x)) eqn:E; [|done].
  unfold key_filter in *. simpl in *. rewrite IH.
  repeat case_bool_decide; try done.
  assert (Heq : fst y = fst x) by congruence.
  rewrite Heq in E. by rewrite value_ltb_irrefl in E.
Qed.

Lemma sort_pure_stable (v : value) (l : list (value * A)) :
  key_filter v (sort_pure l) = key_filter v l.
Proof.
  induction l as [|x l IH]; [done|]. simpl.
  rewrite insert_pure_stable. unfold key_filter in *. simpl. by rewrite IH.
Qed.

Lemma insert_keyed_pure (k : kind) (x : value * A) (l : list (value * A)) :
  kind_of (fst x) = Some k →
  Forall (λ y, kind_of (fst y) = Some k) l →
  insert_keyed x l = Returned (insert_pure x l).
Proof.
  intros Hx. induction 1 as [|y l Hy _ IH]; simpl; [done|].
  rewrite (py_lt_same_kind _ _ k Hy Hx). simpl.
  destruct (value_ltb (fst y) (fst x)); [|done].
  by rewrite IH.
Qed.

Lemma sort_keyed_pure (k : kind) (l : list (value * A)) :
  Forall (λ y, kind_of (fst y) = Some k) l →
  sort_keyed l = Returned (sort_pure l).
Proof.
  induction 1 as [|x l Hx Hl IH]; simpl; [done|].
  rewrite IH. simpl. apply (insert_keyed_pure k); [done|].
  by rewrite sort_pure_perm.
Qed.
End SortFacts.

Lemma Sorted_rev {A} (R : relation A) (l : list A) :
  Sorted R l → Sorted (flip R) (rev l).
Proof.
  intros H. rewrite rev_alt. change (rev_append l []) with (reverse l).
  by apply Sorted_reverse.
Qed.

Section ListSortSpec.
Context {A : Type}.
Variable key : A → outcome value.
Variable keyf : A → value.
Variable k : kind.

Lemma zip_decorate (l : list A) : zip (map keyf l) l = decorate keyf l.
Proof. induction l as [|x l IH]; simpl; [done|]. by rewrite IH. Qed.

Lemma decorate_decorated (l : list A) : Forall (decorated keyf) (decorate keyf l).
Proof. induction l; simpl; constructor; done. Qed.

Lemma snd_decorate (l : list A) : map snd (decorate keyf l) = l.
Proof. induction l as [|x l IH]; simpl; [done|]. by rewrite IH. Qed.

Lemma undecorate_sorted (R : relation (value * A)) (R' : relation A)
    (r : list (value * A)) :
  (∀ p q, (decorated keyf) p → (decorated keyf) q → R p q → R' (snd p) (snd q)) →
  Forall (decorated keyf) r → Sorted R r → Sorted R' (map snd r).
Proof.
  intros HR Hd Hs. induction Hs as [|p r Hs IH Hhd]; simpl; [constructor|].
  inversion Hd as [|? ? Hp Hr]; subst.
  constructor; [by apply IH|].
  destruct Hhd as [|q r' Hpq]; simpl; constructor.
  inversion Hr; subst. by apply HR.
Qed.

Lemma undecorate_filter (v : value) (r : list (value * A)) :
  Forall (decorated keyf) r →
  List.filter (λ x, bool_decide (keyf x = v)) (map snd r) =
    map snd (key_filter v r).
Proof.
  induction 1 as [|p r Hp _ IH]; simpl; [done|].
  unfold key_filter in *. simpl. rewrite <- Hp.
  case_bool_decide; simpl; by rewrite IH.
Qed.

Lemma list_sort_spec (reverse : bool) (l : list A) :
  Forall (λ x, key x = Returned (keyf x) ∧ kind_of (keyf x) = Some k) l →
  ∃ r, list_sort key reverse l = Returned r ∧
       l ≡ₚ r ∧
       Sorted (sorted_by keyf reverse) r ∧
       stable_on keyf l r.
Proof.
  intros Hl.
  assert (Hkeys : traverse key l = Returned (map keyf l)).
  { apply traverse_total. eapply Forall_impl; [exact Hl|]. by intros x [? ?]. }
  assert (Hkind : Forall (λ y : value * A, kind_of (fst y) = Some k) (decorate keyf l)).
  { unfold decorate. rewrite Forall_map. eapply Forall_impl; [exact Hl|].
    by intros x [? ?]. }
  unfold list_sort. rewrite Hkeys. simpl. rewrite zip_decorate.
  set (dl := if reverse then rev (decorate keyf l) else decorate keyf l).
  assert (Hdl : dl ≡ₚ decorate keyf l).
  { unfold dl. destruct reverse; [|done]. symmetry. apply Permutation_rev. }
  rewrite (sort_keyed_pure k) by (by rewrite Hdl). simpl.
  assert (Hs : sort_pure dl ≡ₚ decorate keyf l) by (by rewrite sort_pure_perm).
  assert (Hdec : Forall (decorated keyf) (sort_pure dl)).
  { rewrite Hs. apply decorate_decorated. }
  eexists. split; [done|]. split; [|split].
  - rewrite <- (snd_decorate l) at 1. apply Permutation_map.
    rewrite <- Hs. destruct reverse; [apply Permutation_rev | done].
  - destruct reverse.
    + apply (undecorate_sorted (flip key_le)).
      * intros p q Hp Hq. unfold flip, key_le, sorted_by. by rewrite Hp, Hq.
      * by rewrite <- Permutation_rev.
      * apply Sorted_rev, sort_pure_sorted.
    + apply (undecorate_sorted key_le).
      * intros p q Hp Hq. unfold key_le, sorted_by. by rewrite Hp, Hq.
      * done.
      * apply sort_pure_sorted.
  - intros v.
    rewrite <- (snd_decorate l) at 1.
    rewrite (undecorate_filter v (decorate keyf l)) by apply decorate_decorated.
    destruct reverse.
    + rewrite undecorate_filter by (by rewrite <- Permutation_rev).
      unfold key_filter at 1. rewrite filter_rev.
      fold (key_filter v (sort_pure dl)). rewrite sort_pure_stable.
      unfold dl, key_filter. by rewrite filter_rev, rev_involutive.
    + rewrite undecorate_filter by done.
      by rewrite sort_pure_stable.
Qed.
End ListSortSpec.

(** ** The order of strings *)

Lemma string_leb_ltb (x y : string) :
  String.leb x y = true ↔ String.ltb y x = false.
Proof.
  unfold String.leb, String.ltb. rewrite (String.compare_antisym x y).
  destruct (String.compare y x); simpl; split; congruence.
Qed.

Lemma string_compare_not_gt_trans (x y z : string) :
  String.compare x y ≠ Gt → String.compare y z ≠ Gt → String.compare x z ≠ Gt.
Proof.
  revert y z. induction x as [|a x IH]; intros [|b y] [|c z]; simpl; try done.
  unfold Ascii.compare.
  destruct (N.compare_spec (N_of_ascii a) (N_of_ascii b)),
           (N.compare_spec (N_of_ascii b) (N_of_ascii c)),
           (N.compare_spec (N_of_ascii a) (N_of_ascii c));
    try lia; try done.
  apply IH.
Qed.

Lemma string_leb_trans (x y z : string) :
  String.leb x y = true → String.leb y z = true → String.leb x z = true.
Proof.
  unfold String.leb. intros Hxy Hyz.
  assert (H : String.compare x z ≠ Gt).
  { apply (string_compare_not_gt_trans x y z).
    - by destruct (String.compare x y).
    - by destruct (String.compare y z). }
  by destruct (String.compare x z).
Qed.

(** ** [GET /tools]: what is found and how it is ordered *)

Lemma Sorted_Forall_impl {A} (R R' : relation A) (P : A → Prop) (l : list A) :
  (∀ a b, P a → P b → R a b → R' a b) →
  Forall P l → Sorted R l → Sorted R' l.
Proof.
  intros HR HP Hs. induction Hs as [|a l Hs IH Hhd]; [constructor|].
  inversion HP as [|? ? Ha Hl]; subst.
  constructor; [by apply IH|].
  destruct Hhd as [|b l' Hab]; constructor.
  inversion Hl; subst. by apply HR.
Qed.

Lemma filter_sublist {A} (f : A → bool) (l : list A) :
  List.filter f l `sublist_of` l.
Proof.
  induction l as [|x l IH]; simpl; [done|].
  destruct (f x); by constructor.
Qed.

Lemma find_filter (flt : filter_dict) (coll found : list stored) :
  find flt coll = Returned found →
  ∃ ms, found = List.filter (doc_matches ms) coll.
Proof.
  unfold find. destruct (traverse _ flt) as [ms| |]; simpl; [|done..].
  intros [= <-]. by exists ms.
Qed.

Lemma find_sublist (flt : filter_dict) (coll found : list stored) :
  find flt coll = Returned found → found `sublist_of` coll.
Proof.
  intros H. apply find_filter in H as [ms ->]. apply filter_sublist.
Qed.

Lemma list_tools_unsorted (d : database) (q category : option string)
    (found : list dict) :
  list_tools (Some d) q category None = Returned found →
  ∃ fnd, find (tools_filter q category) (collection d "tool") = Returned fnd ∧
         found = map stringify_id fnd.
Proof.
  unfold list_tools.
  destruct (find _ _) as [fnd| |]; simpl; [|done..].
  intros [= <-]. by exists fnd.
Qed.

Lemma list_tools_found (d : database) (q category sort : option string)
    (fnd : list stored) :
  find (tools_filter q category) (collection d "tool") = Returned fnd →
  list_tools (Some d) q category sort = sort_tools sort (map stringify_id fnd).
Proof. unfold list_tools. by intros ->. Qed.

Lemma stringify_id_lookup (r : stored) (k : string) :
  k ≠ "_id" → stringify_id r !! k = fields r !! k.
Proof. intros Hk. unfold stringify_id. by rewrite lookup_insert_ne. Qed.

Lemma popularity_key (r : stored) :
  natural_popularity r →
  dict_get (stringify_id r) "popularity" (VInt 0) =
    VInt (popularity_of (stringify_id r)).
Proof.
  unfold natural_popularity, dict_get, popularity_of.
  rewrite stringify_id_lookup by done.
  intros [-> | (n & _ & ->)]; done.
Qed.

Lemma diff_order_rank (s : string) : default 0 (diff_order !! s) = rank s.
Proof.
  unfold diff_order, rank. rewrite !lookup_insert, lookup_empty.
  destruct (String.eqb_spec s "Intermediate") as [->|Hi]; [done|].
  destruct (String.eqb_spec s "Advanced") as [->|Ha]; [done|].
  repeat case_decide; simpl; congruence.
Qed.

Lemma difficulty_key (r : stored) :
  scalar_field "difficulty" r →
  diff_order_get (dict_get (stringify_id r) "difficulty" (VStr "Beginner")) =
    Returned (VInt (rank_of (stringify_id r))).
Proof.
  unfold scalar_field, dict_get, rank_of.
  rewrite stringify_id_lookup by done.
  destruct (fields r !! "difficulty") as [[| |s|l]|]; simpl; intros H; try done.
  - by rewrite diff_order_rank.
  - by destruct (H l).
Qed.

Lemma category_key (r : stored) :
  text_field "category" r →
  dict_get (stringify_id r) "category" (VStr "") =
    VStr (category_of (stringify_id r)).
Proof.
  unfold text_field, dict_get, category_of.
  rewrite stringify_id_lookup by done.
  intros [-> | (s & ->)]; done.
Qed.

Lemma stable_on_keys {A B C} `{EqDecision B, EqDecision C}
    (f : A → B) (g : A → C) (inj : C → B) (before after : list A) :
  (∀ c c', inj c = inj c' → c = c') →
  Forall (λ x, f x = inj (g x)) before →
  Forall (λ x, f x = inj (g x)) after →
  stable_on f before after → stable_on g before after.
Proof.
  intros Hinj Hb Ha Hst c. specialize (Hst (inj c)).
  rewrite Forall_forall in Hb, Ha.
  erewrite (filter_ext_in _ (λ x, bool_decide (f x = inj c)) after).
  - erewrite (filter_ext_in _ (λ x, bool_decide (f x = inj c)) before);
      [exact Hst|].
    intros x Hx. apply bool_decide_ext. rewrite (Hb x) by by apply list_elem_of_In.
    split; [congruence | auto].
  - intros x Hx. apply bool_decide_ext. rewrite (Ha x) by by apply list_elem_of_In.
    split; [congruence | auto].
Qed.

Lemma VInt_inj (x y : Z) : VInt x = VInt y → x = y.
Proof. congruence. Qed.

Lemma VStr_inj (x y : string) : VStr x = VStr y → x = y.
Proof. congruence. Qed.

Lemma found_Forall (P : stored → Prop) (flt : filter_dict)
    (coll fnd : list stored) :
  Forall P coll → find flt coll = Returned fnd → Forall P fnd.
Proof.
  intros HP Hf. apply find_sublist in Hf.
  rewrite Forall_forall in HP |- *.
  intros r Hr. apply HP. by eapply elem_of_sublist.
Qed.

Lemma stringified_Forall (P : stored → Prop) (Q : dict → Prop) (fnd : list stored) :
  (∀ r, P r → Q (stringify_id r)) →
  Forall P fnd → Forall Q (map stringify_id fnd).
Proof. intros HPQ HP. rewrite Forall_map. by eapply Forall_impl. Qed.

(** C2. With natural-number popularities in the collection,
    [sort=popularity] returns the records found in non-increasing order
    of popularity (a missing one counting as 0): the same records as
    without [sort], those of equal popularity in their prior order. *)
Theorem sort_by_popularity (d : database) (q category : option string)
    (found : list dict) :
  Forall natural_popularity (collection d "tool") →
  list_tools (Some d) q category None = Returned found →
  ∃ tools,
    list_tools (Some d) q category (Some "popularity") = Returned tools ∧
    StronglySorted (λ a b, popularity_of b ≤ popularity_of a) tools ∧
    found ≡ₚ tools ∧
    stable_on popularity_of found tools.
Proof.
  intros Hnat Hfound.
  apply list_tools_unsorted in Hfound as (fnd & Hfind & ->).
  rewrite (list_tools_found _ _ _ _ _ Hfind).
  pose proof (found_Forall _ _ _ _ Hnat Hfind) as Hfnd.
  set (keyf := λ x : dict, dict_get x "popularity" (VInt 0)).
  assert (Hkeys : Forall (λ t, keyf t = VInt (popularity_of t))
                         (map stringify_id fnd)).
  { eapply stringified_Forall; [|exact Hfnd]. apply popularity_key. }
  destruct (list_sort_spec (λ x, Returned (keyf x)) keyf KInt true
              (map stringify_id fnd)) as (tools & Hrun & Hperm & Hsorted & Hstable).
  { eapply Forall_impl; [exact Hkeys|]. intros t Ht. split; [done|].
    by rewrite Ht. }
  exists tools. split; [exact Hrun|].
  assert (Hkeys' : Forall (λ t, keyf t = VInt (popularity_of t)) tools)
    by (by rewrite <- Hperm).
  split; [|split; [done|]].
  - apply Sorted_StronglySorted; [intros a b c; lia|].
    eapply (Sorted_Forall_impl (sorted_by keyf true));
      [|exact Hkeys'|exact Hsorted].
    intros a b Ha Hb. unfold sorted_by. rewrite Ha, Hb. simpl.
    intros H. apply Z.ltb_ge in H. done.
  - by apply (stable_on_keys keyf popularity_of VInt _ _ VInt_inj Hkeys Hkeys').
Qed.

Lemma example_collection : collection example_database "tool" = example_tools.
Proof. reflexivity. Qed.

Lemma example_popularities : Forall natural_popularity example_tools.
Proof.
  unfold example_tools. rewrite !Forall_cons. repeat split; [| | | |done].
  - right. exists 95. split; [lia | reflexivity].
  - right. exists 90. split; [lia | reflexivity].
  - left. reflexivity.
  - right. exists 95. split; [lia | reflexivity].
Qed.

Lemma sort_by_popularity_witness :
  ∃ tools,
    list_tools (Some example_database) None None (Some "popularity") =
      Returned tools ∧
    StronglySorted (λ a b, popularity_of b ≤ popularity_of a) tools ∧
    map stringify_id example_tools ≡ₚ tools ∧
    stable_on popularity_of (map stringify_id example_tools) tools.
Proof.
  apply (sort_by_popularity example_database None None
           (map stringify_id example_tools)).
  - exact example_popularities.
  - reflexivity.
Defined.

Example popularity_order :
  (map (λ t, t !! "name") <$>
     list_tools (Some example_database) None None (Some "popularity")) =
  Returned [Some (VStr "Nmap"); Some (VStr "Burp Suite");
            Some (VStr "Wireshark"); Some (VStr "Aircrack-ng")].
Proof. vm_compute. reflexivity. Qed.

Lemma sort_tools_unrecognized (sort : option string) (tools : list dict) :
  ¬ recognized_sort sort → sort_tools sort tools = Returned tools.
Proof.
  unfold recognized_sort, sort_tools, sort_is. intros Hsort.
  destruct sort as [s|]; [|done].
  destruct (String.eqb_spec s "popularity") as [->|_]; [tauto|].
  destruct (String.eqb_spec s "difficulty") as [->|_]; [tauto|].
  destruct (String.eqb_spec s "category") as [->|_]; [tauto|].
  done.
Qed.

(** C8. [sort=difficulty] orders the records found by ascending rank
    (Beginner 0, Intermediate 1, Advanced 2, anything else or nothing
    0) and [sort=category] by ascending string order (nothing counting
    as the empty string), both stably; any other [sort], or none,
    returns them as storage gave them. *)
Theorem sort_by_difficulty_or_category (d : database)
    (q category sort : option string) (found : list dict) :
  list_tools (Some d) q category None = Returned found →
  (Forall (scalar_field "difficulty") (collection d "tool") →
   ∃ tools,
     list_tools (Some d) q category (Some "difficulty") = Returned tools ∧
     StronglySorted (λ a b, rank_of a ≤ rank_of b) tools ∧
     found ≡ₚ tools ∧
     stable_on rank_of found tools) ∧
  (Forall (text_field "category") (collection d "tool") →
   ∃ tools,
     list_tools (Some d) q category (Some "category") = Returned tools ∧
     StronglySorted
       (λ a b, String.leb (category_of a) (category_of b) = true) tools ∧
     found ≡ₚ tools ∧
     stable_on category_of found tools) ∧
  (¬ recognized_sort sort →
   list_tools (Some d) q category sort = Returned found) ∧
  (∃ fnd, fnd `sublist_of` collection d "tool" ∧ found = map stringify_id fnd).
Proof.
  intros Hfound.
  apply list_tools_unsorted in Hfound as (fnd & Hfind & ->).
  split; [|split; [|split]].
  - intros Hscalar.
    rewrite (list_tools_found _ _ _ _ _ Hfind).
    pose proof (found_Forall _ _ _ _ Hscalar Hfind) as Hfnd.
    set (key := λ x : dict,
           diff_order_get (dict_get x "difficulty" (VStr "Beginner"))).
    set (keyf := λ x : dict, VInt (rank_of x)).
    assert (Hkeys : Forall (λ t, key t = Returned (keyf t))
                           (map stringify_id fnd)).
    { eapply stringified_Forall; [|exact Hfnd]. apply difficulty_key. }
    destruct (list_sort_spec key keyf KInt false (map stringify_id fnd))
      as (tools & Hrun & Hperm & Hsorted & Hstable).
    { eapply Forall_impl; [exact Hkeys|]. by intros t Ht. }
    exists tools. split; [exact Hrun|]. split; [|split; [done|]].
    + apply Sorted_StronglySorted; [intros a b c; lia|].
      eapply (Sorted_Forall_impl (sorted_by keyf false) _ (λ _, True));
        [|by apply Forall_true|exact Hsorted].
      intros a b _ _. unfold sorted_by, keyf. simpl.
      intros H. apply Z.ltb_ge in H. done.
    + apply (stable_on_keys keyf rank_of VInt _ _ VInt_inj); [| |done].
      * by apply Forall_true.
      * by apply Forall_true.
  - intros Htext.
    rewrite (list_tools_found _ _ _ _ _ Hfind).
    pose proof (found_Forall _ _ _ _ Htext Hfind) as Hfnd.
    set (keyf := λ x : dict, dict_get x "category" (VStr "")).
    assert (Hkeys : Forall (λ t, keyf t = VStr (category_of t))
                           (map stringify_id fnd)).
    { eapply stringified_Forall; [|exact Hfnd]. apply category_key. }
    destruct (list_sort_spec (λ x, Returned (keyf x)) keyf KStr false
                (map stringify_id fnd))
      as (tools & Hrun & Hperm & Hsorted & Hstable).
    { eapply Forall_impl; [exact Hkeys|]. intros t Ht. split; [done|].
      by rewrite Ht. }
    exists tools. split; [exact Hrun|].
    assert (Hkeys' : Forall (λ t, keyf t = VStr (category_of t)) tools)
      by (by rewrite <- Hperm).
    split; [|split; [done|]].
    + apply Sorted_StronglySorted.
      { intros a b c. apply string_leb_trans. }
      eapply (Sorted_Forall_impl (sorted_by keyf false));
        [|exact Hkeys'|exact Hsorted].
      intros a b Ha Hb. unfold sorted_by. rewrite Ha, Hb. simpl.
      by rewrite string_leb_ltb.
    + by apply (stable_on_keys keyf category_of VStr _ _ VStr_inj Hkeys Hkeys').
  - intros Hsort. rewrite (list_tools_found _ _ _ _ _ Hfind).
    by apply sort_tools_unrecognized.
  - exists fnd. split; [by eapply find_sublist | done].
Qed.

Lemma example_difficulties :
  Forall (scalar_field "difficulty") (collection example_database "tool").
Proof.
  change (collection example_database "tool") with example_tools.
  unfold example_tools. rewrite !Forall_cons.
  repeat split; try done; intros l; vm_compute; discriminate.
Qed.

Lemma example_text_categories :
  Forall (text_field "category") (collection example_database "tool").
Proof.
  change (collection example_database "tool") with example_tools.
  unfold example_tools. rewrite !Forall_cons.
  repeat split; try done; right; eexists; reflexivity.
Qed.

Lemma name_not_recognized : ¬ recognized_sort (Some "name").
Proof. intros [H | [H | H]]; discriminate. Qed.

Lemma sort_by_difficulty_or_category_witness :
  (∃ tools,
     list_tools (Some example_database) None None (Some "difficulty") =
       Returned tools ∧
     StronglySorted (λ a b, rank_of a ≤ rank_of b) tools ∧
     map stringify_id example_tools ≡ₚ tools ∧
     stable_on rank_of (map stringify_id example_tools) tools) ∧
  (∃ tools,
     list_tools (Some example_database) None None (Some "category") =
       Returned tools ∧
     StronglySorted
       (λ a b, String.leb (category_of a) (category_of b) = true) tools ∧
     map stringify_id example_tools ≡ₚ tools ∧
     stable_on category_of (map stringify_id example_tools) tools) ∧
  list_tools (Some example_database) None None (Some "name") =
    Returned (map stringify_id example_tools) ∧
  (∃ fnd, fnd `sublist_of` collection example_database "tool" ∧
          map stringify_id example_tools = map stringify_id fnd).
Proof.
  destruct (sort_by_difficulty_or_category example_database None None
              (Some "name") (map stringify_id example_tools) eq_refl)
    as (Hdifficulty & Hcategory & Hother & Hstorage).
  split; [exact (Hdifficulty example_difficulties)|].
  split; [exact (Hcategory example_text_categories)|].
  split; [exact (Hother name_not_recognized)|].
  exact Hstorage.
Defined.

Example difficulty_order :
  (map (λ t, t !! "name") <$>
     list_tools (Some example_database) None None (Some "difficulty")) =
  Returned [Some (VStr "Wireshark"); Some (VStr "Burp Suite");
            Some (VStr "Nmap"); Some (VStr "Aircrack-ng")].
Proof. vm_compute. reflexivity. Qed.

Example category_order :
  (map (λ t, t !! "name") <$>
     list_tools (Some example_database) None None (Some "category")) =
  Returned [Some (VStr "Wireshark"); Some (VStr "Nmap");
            Some (VStr "Burp Suite"); Some (VStr "Aircrack-ng")].
Proof. vm_compute. reflexivity. Qed.

(** ** Sorting only reorders *)

Section SortPermutes.
Context {A : Type}.

Lemma insert_keyed_perm (x : value * A) (l r : list (value * A)) :
  insert_keyed x l = Returned r → r ≡ₚ x :: l.
Proof.
  revert r. induction l as [|y l IH]; simpl; intros r.
  - by intros [= <-].
  - destruct (py_lt (fst y) (fst x)) as [[|]| |]; simpl; try done.
    + destruct (insert_keyed x l) as [r'| |]; simpl; try done.
      intros [= <-]. rewrite (IH r' eq_refl). apply Permutation_swap.
    + by intros [= <-].
Qed.

Lemma sort_keyed_perm (l r : list (value * A)) :
  sort_keyed l = Returned r → r ≡ₚ l.
Proof.
  revert r. induction l as [|x l IH]; simpl; intros r.
  - by intros [= <-].
  - destruct (sort_keyed l) as [s| |]; simpl; try done.
    intros H. apply insert_keyed_perm in H. by rewrite H, (IH s eq_refl).
Qed.

Lemma traverse_length {B} (f : A → outcome B) (l : list A) (ks : list B) :
  traverse f l = Returned ks → length ks = length l.
Proof.
  revert ks. induction l as [|x l IH]; simpl; intros ks.
  - by intros [= <-].
  - destruct (f x) as [y| |]; simpl; try done.
    destruct (traverse f l) as [ys| |]; simpl; try done.
    intros [= <-]. simpl. by rewrite (IH ys eq_refl).
Qed.

Lemma list_sort_perm (key : A → outcome value) (reverse : bool) (l r : list A) :
  list_sort key reverse l = Returned r → l ≡ₚ r.
Proof.
  unfold list_sort.
  destruct (traverse key l) as [ks| |] eqn:Hks; simpl; try done.
  apply traverse_length in Hks.
  destruct (sort_keyed _) as [s| |] eqn:Hs; simpl; try done.
  intros [= <-]. apply sort_keyed_perm in Hs.
  assert (Hzip : map snd (zip ks l) = l) by (apply snd_zip; lia).
  rewrite <- Hzip at 1. apply Permutation_map.
  destruct reverse.
  - by rewrite <- Permutation_rev, Hs, <- Permutation_rev.
  - by rewrite Hs.
Qed.
End SortPermutes.

Lemma sort_tools_perm (sort : option string) (tools sorted : list dict) :
  sort_tools sort tools = Returned sorted → tools ≡ₚ sorted.
Proof.
  unfold sort_tools.
  repeat (destruct (sort_is sort _); [apply list_sort_perm|]).
  by intros [= <-].
Qed.

(** ** The name filter is a regular expression *)

Lemma dot_is_metachar (c : ascii) :
  is_metachar c = false → Ascii.eqb c "."%char = false.
Proof.
  intros H. destruct (Ascii.eqb_spec c "."%char) as [->|]; [|done].
  by vm_compute in H.
Qed.

Lemma compile_regex_plain (q : string) :
  plain q → compile_regex q = Some (literal_atoms q).
Proof.
  unfold plain, literal_atoms.
  induction q as [|c q IH]; simpl; [done|].
  intros H. apply Forall_cons in H as [Hc Hq].
  rewrite (IH Hq). simpl. by rewrite (dot_is_metachar c Hc), Hc.
Qed.

Lemma match_here_literal (q s : string) :
  match_here true (literal_atoms q) s = true ↔
  ∃ mid post, s = mid +:+ post ∧ lowercase mid = lowercase q.
Proof.
  unfold literal_atoms. revert s. induction q as [|c q IH]; intros s; simpl.
  - split; [|done]. intros _. by exists "", s.
  - destruct s as [|c' s].
    + split; [done|]. intros (mid & post & Heq & Hl).
      destruct mid; simpl in *; done.
    + rewrite andb_true_iff, IH. unfold char_eq. rewrite Ascii.eqb_eq. split.
      * intros (Hc & mid & post & -> & Hl).
        exists (String c' mid), post. simpl. by rewrite Hl, Hc.
      * intros (mid & post & Heq & Hl).
        destruct mid as [|m mid]; simpl in *; [done|].
        injection Heq as -> ->. injection Hl as Hc Hl.
        split; [done|]. by exists mid, post.
Qed.

Lemma regex_search_literal (q s : string) :
  regex_search true (literal_atoms q) s = true ↔ contains_ci q s.
Proof.
  unfold contains_ci. induction s as [|c s IH]; simpl.
  - rewrite orb_false_r, match_here_literal. split.
    + intros (mid & post & Heq & Hl). by exists "", mid, post.
    + intros (pre & mid & post & Heq & Hl).
      destruct pre; simpl in *; [|done]. by exists mid, post.
  - rewrite orb_true_iff, match_here_literal, IH. split.
    + intros [(mid & post & Heq & Hl) | (pre & mid & post & -> & Hl)].
      * by exists "", mid, post.
      * by exists (String c pre), mid, post.
    + intros (pre & mid & post & Heq & Hl).
      destruct pre as [|c' pre]; simpl in *.
      * left. by exists mid, post.
      * injection Heq as -> ->. right. by exists pre, mid, post.
Qed.

Lemma name_matcher (q : string) (r : stored) :
  scalar_field "name" r →
  regex_matcher true (literal_atoms q) (fields r !! "name") = true ↔
  name_contains q r.
Proof.
  unfold scalar_field, name_contains, regex_matcher. intros Hs.
  destruct (fields r !! "name") as [[| |n|l]|].
  - split; [done | by intros (? & ? & _)].
  - split; [done | by intros (? & ? & _)].
  - rewrite regex_search_literal. split.
    + intros H. by exists n.
    + by intros (? & [= <-] & H).
  - by destruct (Hs l).
  - split; [done | by intros (? & ? & _)].
Qed.

Lemma category_matcher (c : string) (r : stored) :
  scalar_field "category" r →
  equals_matcher (VStr c) (fields r !! "category") = true ↔ category_is c r.
Proof.
  unfold scalar_field, category_is, equals_matcher. intros Hs.
  destruct (fields r !! "category") as [[| |s|l]|].
  - rewrite bool_decide_eq_true. split; congruence.
  - rewrite bool_decide_eq_true. split; congruence.
  - rewrite bool_decide_eq_true. split; congruence.
  - by destruct (Hs l).
  - rewrite bool_decide_eq_true. split; congruence.
Qed.

Lemma find_tools_filter (q category : option string) (coll : list stored) :
  (∀ s, q = Some s → plain s) →
  find (tools_filter q category) coll =
    Returned (List.filter (keep_test q category) coll).
Proof.
  intros Hplain. unfold find, tools_filter, keep_test.
  destruct q as [[|a q]|], category as [[|b c]|];
    cbn -[compile_regex literal_atoms];
    try (rewrite (compile_regex_plain (String a q)) by (by apply Hplain);
         cbn -[literal_atoms]);
    f_equal; apply filter_ext; intros r; unfold doc_matches;
    cbn -[literal_atoms]; by rewrite ?andb_true_r.
Qed.

Lemma keep_test_kept (q category : option string) (r : stored) :
  scalar_field "name" r → scalar_field "category" r →
  keep_test q category r = true ↔ kept q category r.
Proof.
  intros Hn Hc. unfold keep_test, kept. rewrite andb_true_iff.
  destruct (truthy q), (truthy category);
    rewrite ?name_matcher, ?category_matcher by done; intuition congruence.
Qed.

(** C1, as the code has it. For a collection whose names and categories
    are not lists: a non-empty [q] free of metacharacters keeps the
    records whose name contains it, letter case apart; a non-empty
    [category] keeps the records of exactly that category; both
    together keep the records that pass both; a parameter that is
    absent or empty filters nothing. Without [sort] the records kept
    come in storage order, and a [sort] only reorders them. *)
Theorem list_tools_filter (d : database) (q category : option string) :
  (∀ s, q = Some s → plain s) →
  Forall (scalar_field "name") (collection d "tool") →
  Forall (scalar_field "category") (collection d "tool") →
  ∃ keep : stored → bool,
    (∀ r, r ∈ collection d "tool" → keep r = true ↔ kept q category r) ∧
    list_tools (Some d) q category None =
      Returned (map stringify_id (List.filter keep (collection d "tool"))) ∧
    ∀ sort tools,
      list_tools (Some d) q category sort = Returned tools →
      map stringify_id (List.filter keep (collection d "tool")) ≡ₚ tools.
Proof.
  intros Hplain Hnames Hcats.
  exists (keep_test q category).
  pose proof (find_tools_filter q category (collection d "tool") Hplain) as Hfind.
  split; [|split].
  - intros r Hr. rewrite Forall_forall in Hnames, Hcats.
    apply keep_test_kept; auto.
  - by rewrite (list_tools_found _ _ _ _ _ Hfind).
  - intros sort tools. rewrite (list_tools_found _ _ _ _ _ Hfind).
    apply sort_tools_perm.
Qed.

Lemma example_names : Forall (scalar_field "name") example_tools.
Proof.
  unfold example_tools. rewrite !Forall_cons.
  repeat split; try done; intros l; vm_compute; discriminate.
Qed.

Lemma example_categories : Forall (scalar_field "category") example_tools.
Proof.
  unfold example_tools. rewrite !Forall_cons.
  repeat split; try done; intros l; vm_compute; discriminate.
Qed.

Lemma plain_map : plain "MAP".
Proof. unfold plain. simpl. repeat constructor. Qed.

Lemma list_tools_filter_witness :
  ∃ keep : stored → bool,
    (∀ r, r ∈ collection example_database "tool" →
          keep r = true ↔ kept (Some "MAP") (Some "Reconnaissance") r) ∧
    list_tools (Some example_database) (Some "MAP") (Some "Reconnaissance") None =
      Returned (map stringify_id
                  (List.filter keep (collection example_database "tool"))) ∧
    ∀ sort tools,
      list_tools (Some example_database) (Some "MAP") (Some "Reconnaissance") sort
        = Returned tools →
      map stringify_id (List.filter keep (collection example_database "tool"))
        ≡ₚ tools.
Proof.
  apply (list_tools_filter example_database (Some "MAP") (Some "Reconnaissance")).
  - intros s [= <-]. exact plain_map.
  - exact example_names.
  - exact example_categories.
Defined.

Example filter_by_name :
  (map (λ t, t !! "name") <$>
     list_tools (Some example_database) (Some "MAP") None None) =
  Returned [Some (VStr "Nmap")].
Proof. vm_compute. reflexivity. Qed.

(** C1, as the spec words it, fails twice. [q] is handed to MongoDB as
    a regular expression, so [q = "."] keeps the tool named ["Nmap"],
    whose name has no dot in it; and an empty [category] keeps a tool of
    category ["Reconnaissance"], which is not the empty string. *)
Lemma list_tools_filter_counterexample :
  (∃ tools t,
     list_tools (Some example_database) (Some ".") None None = Returned tools ∧
     t ∈ tools ∧
     t !! "name" = Some (VStr "Nmap") ∧
     ¬ contains_ci "." "Nmap") ∧
  (∃ tools t,
     list_tools (Some example_database) None (Some "") None = Returned tools ∧
     t ∈ tools ∧
     t !! "category" = Some (VStr "Reconnaissance")).
Proof.
  split.
  - eexists. exists (stringify_id (Stored 0 (<["name" := VStr "Nmap"]>
               (<["category" := VStr "Reconnaissance"]>
               (<["popularity" := VInt 95]>
               (<["difficulty" := VStr "Intermediate"]> ∅)))))).
    split; [vm_compute; reflexivity|].
    split; [vm_compute; apply list_elem_of_here|].
    split; [reflexivity|].
    intros H. apply regex_search_literal in H. by vm_compute in H.
  - eexists. exists (stringify_id (Stored 0 (<["name" := VStr "Nmap"]>
               (<["category" := VStr "Reconnaissance"]>
               (<["popularity" := VInt 95]>
               (<["difficulty" := VStr "Intermediate"]> ∅)))))).
    split; [vm_compute; reflexivity|].
    split; [vm_compute; apply list_elem_of_here|].
    reflexivity.
Qed.

(** ** [GET /news] *)

Lemma sample_items_shape (now : string) :
  length (sample_items now) = 3%nat ∧
  Forall (λ item, source item = Some "Sample" ∧ published_at item = Some now)
         (sample_items now).
Proof. split; [done|]. unfold sample_items. repeat constructor. Qed.

Lemma get_news_fallback (env : gmap string string)
    (fetch_json : string → outcome json) (now : string) :
  (truthy (api_key env) = true →
   fetch_items fetch_json (default "" (api_key env)) = []) →
  get_news env fetch_json now = sample_items now.
Proof.
  intros H. unfold get_news.
  destruct (truthy (api_key env)); [by rewrite H | done].
Qed.

(** C3. With no API key, or when the outbound call raised, or when it
    gave no usable item, [GET /news] returns the three sample items,
    each from ["Sample"] and all stamped with the one request time. *)
Theorem news_fallback (env : gmap string string)
    (fetch_json : string → outcome json) (now : string) :
  truthy (api_key env) = false ∨
  (∃ e, fetch_json (news_url (default "" (api_key env))) = Raised e) ∨
  fetch_items fetch_json (default "" (api_key env)) = [] →
  get_news env fetch_json now = sample_items now ∧
  length (get_news env fetch_json now) = 3%nat ∧
  Forall (λ item, source item = Some "Sample" ∧ published_at item = Some now)
         (get_news env fetch_json now).
Proof.
  intros H.
  assert (Hnews : get_news env fetch_json now = sample_items now).
  { apply get_news_fallback. intros Hkey.
    destruct H as [Hno | [[e He] | Hzero]].
    - congruence.
    - unfold fetch_items. by rewrite He.
    - done. }
  rewrite Hnews. split; [done|]. apply sample_items_shape.
Qed.

Lemma news_fallback_witness :
  get_news ∅ (λ _, Raised RequestException) "2024-05-01T12:00:00+00:00" =
    sample_items "2024-05-01T12:00:00+00:00" ∧
  length (get_news ∅ (λ _, Raised RequestException)
            "2024-05-01T12:00:00+00:00") = 3%nat ∧
  Forall (λ item, source item = Some "Sample" ∧
                  published_at item = Some "2024-05-01T12:00:00+00:00")
         (get_news ∅ (λ _, Raised RequestException)
            "2024-05-01T12:00:00+00:00").
Proof.
  apply (news_fallback ∅ (λ _, Raised RequestException)
           "2024-05-01T12:00:00+00:00").
  left. reflexivity.
Defined.

(** An empty or missing result list is one way to get no usable item. *)
Lemma fetch_items_no_results (fetch_json : string → outcome json)
    (key : string) (data results : json) :
  fetch_json (news_url key) = Returned data →
  json_get data "results" = Returned results →
  json_truthy results = false →
  fetch_items fetch_json key = [].
Proof.
  intros Hd Hr Ht. unfold fetch_items, json_or. rewrite Hd, Hr. simpl.
  by rewrite Ht.
Qed.

Lemma append_items_spec (articles : list json) (acc : list NewsItem) :
  ∃ new,
    snd (append_items articles acc) = acc ++ new ∧
    Forall2 (λ a item, news_item_of a = Returned item)
            (firstn (length new) articles) new ∧
    (Forall usable articles → length new = length articles).
Proof.
  revert acc. induction articles as [|a rest IH]; intros acc; simpl.
  - exists []. by rewrite app_nil_r.
  - destruct (news_item_of a) as [item|e|] eqn:Ha.
    + destruct (IH (acc ++ [item])) as (new & Hsnd & Hmap & Hall).
      exists (item :: new). split; [by rewrite Hsnd, <- app_assoc|].
      split; [by constructor|].
      intros Hu. apply Forall_cons in Hu as [_ Hu]. simpl. by rewrite Hall.
    + exists []. rewrite app_nil_r. split; [done|]. split; [constructor|].
      intros Hu. apply Forall_cons in Hu as [[item Hitem] _]. congruence.
    + exists []. rewrite app_nil_r. split; [done|]. split; [constructor|].
      intros Hu. apply Forall_cons in Hu as [[item Hitem] _]. congruence.
Qed.

Lemma fetch_items_results (fetch_json : string → outcome json)
    (key : string) (data : json) (rs : list json) :
  fetch_json (news_url key) = Returned data →
  json_get data "results" = Returned (JArr rs) →
  fetch_items fetch_json key = snd (append_items (firstn 12 rs) []).
Proof.
  intros Hd Hr. unfold fetch_items, json_or. rewrite Hd, Hr. simpl.
  destruct rs; done.
Qed.

Lemma news_item_of_object (a : json) (item : NewsItem) :
  news_item_of a = Returned item → ∃ members, a = JObj members.
Proof. destruct a; try done. eauto. Qed.

Lemma news_item_fields (members : list (string * json)) (item : NewsItem) :
  news_item_of (JObj members) = Returned item →
  title item =
    default "" (json_str (json_or (default JNull (obj_lookup "title" members))
                                  (JStr "Untitled"))) ∧
  url item =
    default "" (json_str
      (json_or (json_or (default JNull (obj_lookup "link" members))
                        (default JNull (obj_lookup "url" members)))
               (JStr ""))).
Proof.
  unfold news_item_of, NewsItem_new. cbn [json_get mbind outcome_bind].
  destruct (_ ++ _); [|done]. by intros [= <-].
Qed.

Lemma json_or_str (s : string) (b : json) : s ≠ "" → json_or (JStr s) b = JStr s.
Proof.
  intros Hs. unfold json_or. simpl. by destruct (String.eqb_spec s "").
Qed.

Lemma news_item_defaults (members : list (string * json)) (item : NewsItem) :
  news_item_of (JObj members) = Returned item →
  (obj_lookup "title" members = None → title item = "Untitled") ∧
  (∀ s, s ≠ "" → obj_lookup "title" members = Some (JStr s) → title item = s) ∧
  (∀ s, s ≠ "" → obj_lookup "link" members = Some (JStr s) → url item = s) ∧
  (obj_lookup "link" members = None →
   ∀ u, u ≠ "" → obj_lookup "url" members = Some (JStr u) → url item = u).
Proof.
  intros H. apply news_item_fields in H as [-> ->].
  split; [by intros ->|].
  split; [intros s Hs ->; cbn [from_option id]; by rewrite json_or_str|].
  split.
  - intros s Hs ->. cbn [from_option id]. by rewrite !json_or_str.
  - intros -> u Hu ->. cbn [from_option id].
    change (json_or JNull (JStr u)) with (JStr u). by rewrite json_or_str.
Qed.

(** C9. After a successful call to the provider, [GET /news] maps the
    provider's results from the first on, never more than 12, all of
    the first 12 when each is usable; an item gets the title
    ["Untitled"] when its result has none, and its url from ["link"],
    or from ["url"] when there is no ["link"]. *)
Theorem news_mapping (env : gmap string string)
    (fetch_json : string → outcome json) (now key : string)
    (data : json) (rs : list json) :
  api_key env = Some key → key ≠ "" →
  fetch_json (news_url key) = Returned data →
  json_get data "results" = Returned (JArr rs) →
  ∃ items,
    fetch_items fetch_json key = items ∧
    (items ≠ [] → get_news env fetch_json now = items) ∧
    (length items ≤ 12)%nat ∧
    (length items ≤ length rs)%nat ∧
    (Forall usable (firstn 12 rs) → length items = Nat.min 12 (length rs)) ∧
    ∀ i item,
      items !! i = Some item →
      ∃ members,
        rs !! i = Some (JObj members) ∧
        (obj_lookup "title" members = None → title item = "Untitled") ∧
        (∀ s, s ≠ "" → obj_lookup "title" members = Some (JStr s) →
              title item = s) ∧
        (∀ s, s ≠ "" → obj_lookup "link" members = Some (JStr s) →
              url item = s) ∧
        (obj_lookup "link" members = None →
         ∀ u, u ≠ "" → obj_lookup "url" members = Some (JStr u) →
              url item = u).
Proof.
  intros Hkey Hne Hdata Hresults.
  rewrite (fetch_items_results _ _ _ _ Hdata Hresults).
  destruct (append_items_spec (firstn 12 rs) []) as (items & Hsnd & Hmap & Hall).
  simpl in Hsnd. exists items. split; [done|].
  assert (Hlen : (length items ≤ length (firstn 12 rs))%nat).
  { apply Forall2_length in Hmap. rewrite <- Hmap, !length_firstn. lia. }
  rewrite length_firstn in Hlen.
  split; [|split; [lia|split; [lia|split]]].
  - intros Hitems. unfold get_news. rewrite Hkey. simpl default.
    destruct key; [done|]. simpl truthy. cbv iota.
    rewrite (fetch_items_results _ _ _ _ Hdata Hresults), Hsnd.
    by destruct items.
  - intros Hu. rewrite (Hall Hu), length_firstn. done.
  - intros i item Hi.
    destruct (Forall2_lookup_r _ _ _ _ _ Hmap Hi) as (a & Ha & Hitem).
    destruct (news_item_of_object _ _ Hitem) as [members ->].
    exists members. split.
    + rewrite !lookup_take_Some in Ha. tauto.
    + by apply news_item_defaults.
Qed.

Lemma news_mapping_witness :
  ∃ items,
    fetch_items (λ _, Returned example_feed) "k3y" = items ∧
    (items ≠ [] →
     get_news example_env (λ _, Returned example_feed) "2024-05-01T12:00:00"
       = items) ∧
    (length items ≤ 12)%nat ∧
    (length items ≤ length example_results)%nat ∧
    (Forall usable (firstn 12 example_results) →
     length items = Nat.min 12 (length example_results)) ∧
    ∀ i item,
      items !! i = Some item →
      ∃ members,
        example_results !! i = Some (JObj members) ∧
        (obj_lookup "title" members = None → title item = "Untitled") ∧
        (∀ s, s ≠ "" → obj_lookup "title" members = Some (JStr s) →
              title item = s) ∧
        (∀ s, s ≠ "" → obj_lookup "link" members = Some (JStr s) →
              url item = s) ∧
        (obj_lookup "link" members = None →
         ∀ u, u ≠ "" → obj_lookup "url" members = Some (JStr u) →
              url item = u).
Proof.
  apply (news_mapping example_env (λ _, Returned example_feed)
           "2024-05-01T12:00:00" "k3y" example_feed example_results).
  - reflexivity.
  - discriminate.
  - reflexivity.
  - reflexivity.
Defined.

Example mapped_feed :
  map (λ item, (title item, url item))
      (get_news example_env (λ _, Returned example_feed) "2024-05-01T12:00:00") =
  [("Untitled", "https://news.example/a");
   ("Patch day", "https://news.example/b")].
Proof. vm_compute. reflexivity. Qed.

(** A result that cannot be mapped ends the loop; the items mapped
    before it are returned. *)
Example interrupted_feed :
  map title
      (get_news example_env
         (λ _, Returned (JObj [("results",
                                JArr (example_results ++ [JStr "oops"]))]))
         "2024-05-01T12:00:00") =
  ["Untitled"; "Patch day"].
Proof. vm_compute. reflexivity. Qed.

(** ** [GET /test] *)

Lemma take_chars_prefix_count (n : nat) (s : string) :
  (char_count (take_chars n s) ≤ n)%nat ∧
  String.prefix (take_chars n s) s = true.
Proof.
  revert n. induction s as [|c s IH]; intros n; simpl; [split; [lia | done]|].
  destruct (is_continuation c) eqn:Hc.
  - simpl. rewrite Hc. destruct (IH n) as [Hlen Hpre]. split; [done|].
    destruct (ascii_dec c c); [done | congruence].
  - destruct n as [|n]; simpl; [split; [lia | done]|].
    rewrite Hc. destruct (IH n) as [Hlen Hpre]. split; [lia|].
    destruct (ascii_dec c c); [done | congruence].
Qed.

(** X1. [GET /test] reports at most ten collections, says "Connected"
    exactly when there is a handle (also when the listing failed), and
    cuts the text of a listing error to its first 80 characters. *)
Theorem test_database_report (env : gmap string string) (db : option handle) :
  (length (diag_collections (test_database env db)) ≤ 10)%nat ∧
  (diag_connection_status (test_database env db) = "Connected" ↔ db ≠ None) ∧
  (diag_database_url (test_database env db) ≠ None ↔ db ≠ None) ∧
  (∀ h names,
     db = Some h → handle_collection_names h = Listed names →
     diag_collections (test_database env db) = firstn 10 names ∧
     diag_database (test_database env db) = "✅ Connected & Working") ∧
  (∀ h message,
     db = Some h → handle_collection_names h = ListingFailed message →
     diag_collections (test_database env db) = [] ∧
     ∃ m, diag_database (test_database env db) =
            "⚠️ Connected but Error: " +:+ m ∧
          (char_count m ≤ 80)%nat ∧
          String.prefix m message = true).
Proof.
  split; [|split; [|split; [|split]]].
  - destruct db as [h|]; simpl; [|lia].
    destruct (handle_collection_names h); simpl; [|lia].
    rewrite length_firstn. lia.
  - destruct db as [h|]; simpl.
    + destruct (handle_collection_names h); simpl; split; done.
    + split; done.
  - destruct db as [h|]; simpl.
    + destruct (handle_collection_names h); simpl; split; done.
    + split; done.
  - intros h names -> Hnames. simpl. by rewrite Hnames.
  - intros h message -> Hfail. simpl. rewrite Hfail. simpl.
    split; [done|]. exists (first80 message). split; [done|].
    apply take_chars_prefix_count.
Qed.

Example failing_listing :
  diag_database (test_database ∅ (Some failing_handle)) =
  "⚠️ Connected but Error: ServerSelectionTimeoutError: localhost:27017: [Errno 111] Connection refused, Ti".
Proof. vm_compute. reflexivity. Qed.

(** ** [GET /incidents] *)

(** X2. [GET /incidents] returns three incidents, all stamped with the
    one request time, and each of them is a dict the [Incident] schema
    accepts whenever that time parses. *)
Theorem incidents_valid (parse_datetime : string → option string) (now : string) :
  parse_datetime now ≠ None →
  length (incidents now) = 3%nat ∧
  Forall (λ inc,
            inc !! "time" = Some now ∧
            ∃ i, Incident_new parse_datetime (Incident_kwargs inc) = Returned i ∧
                 incident_severity i ∈ severities)
         (incidents now).
Proof.
  intros Hnow. split; [done|].
  unfold incidents. rewrite !Forall_cons. repeat split; try done.
  all: unfold Incident_new, Incident_errors, Incident_kwargs, datetime_field,
         incident; simpl; rewrite !lookup_insert; simpl.
  all: destruct (parse_datetime now) eqn:E; [|done].
  all: eexists; split; [reflexivity|]; simpl; set_solver.
Qed.

Lemma incidents_valid_witness :
  length (incidents "2024-05-01T12:00:00+00:00") = 3%nat ∧
  Forall (λ inc,
            inc !! "time" = Some "2024-05-01T12:00:00+00:00" ∧
            ∃ i, Incident_new Some (Incident_kwargs inc) = Returned i ∧
                 incident_severity i ∈ severities)
         (incidents "2024-05-01T12:00:00+00:00").
Proof.
  apply (incidents_valid Some "2024-05-01T12:00:00+00:00"). discriminate.
Defined.

(** ** [GET /news]: every run *)

Lemma NewsItem_new_inv (t d u i s p : json) (item : NewsItem) :
  NewsItem_new t d u i s p = Returned item →
  t = JStr (title item) ∧
  u = JStr (url item) ∧
  description item = json_str d ∧
  image_url item = json_str i ∧
  source item = json_str s ∧
  published_at item = json_str p.
Proof.
  unfold NewsItem_new.
  destruct t; simpl; try done.
  destruct d; simpl; try done;
    destruct u; simpl; try done;
    destruct i; simpl; try done;
    destruct s; simpl; try done;
    destruct p; simpl; try done;
    by intros [= <-].
Qed.

Lemma news_item_of_inv (members : list (string * json)) (item : NewsItem) :
  news_item_of (JObj members) = Returned item →
  json_or (member members "title") (JStr "Untitled") = JStr (title item) ∧
  json_or (json_or (member members "link") (member members "url")) (JStr "") =
    JStr (url item) ∧
  description item = json_str (member members "description") ∧
  image_url item =
    json_str (json_or (json_or (member members "image_url")
                               (member members "image_url")) JNull) ∧
  source item = json_str (member members "source_id") ∧
  published_at item =
    json_str (json_or (member members "pubDate") (member members "pubDate")).
Proof.
  unfold news_item_of. cbn [json_get mbind outcome_bind].
  apply NewsItem_new_inv.
Qed.

Lemma json_or_truthy (a b : json) (s : string) :
  json_or a b = JStr s → json_truthy b = true → s ≠ "".
Proof.
  unfold json_or. destruct (json_truthy a) eqn:Ha.
  - intros -> _. simpl in Ha. intros ->. done.
  - intros -> Hb. simpl in Hb. intros ->. done.
Qed.

Lemma news_item_title (a : json) (item : NewsItem) :
  news_item_of a = Returned item → title item ≠ "".
Proof.
  intros H. destruct (news_item_of_object _ _ H) as [members ->].
  apply news_item_of_inv in H as (Ht & _).
  by apply (json_or_truthy _ _ _ Ht).
Qed.

Lemma append_items_length (articles : list json) :
  (length (snd (append_items articles [])) ≤ length articles)%nat.
Proof.
  destruct (append_items_spec articles []) as (new & -> & Hmap & _).
  apply Forall2_length in Hmap. rewrite length_firstn in Hmap. simpl. lia.
Qed.

Lemma append_items_titles (articles : list json) :
  Forall (λ item, title item ≠ "") (snd (append_items articles [])).
Proof.
  destruct (append_items_spec articles []) as (new & -> & Hmap & _). simpl.
  rewrite Forall_forall. intros item Hitem.
  apply list_elem_of_lookup in Hitem as [i Hi].
  destruct (Forall2_lookup_r _ _ _ _ _ Hmap Hi) as (a & _ & Ha).
  by eapply news_item_title.
Qed.

Lemma slice12_length (j : json) (articles : list json) :
  slice12 j = Returned articles → (length articles ≤ 12)%nat.
Proof.
  destruct j; simpl; try done; intros [= <-].
  - rewrite length_map, length_firstn. lia.
  - rewrite length_firstn. lia.
Qed.

Lemma fetch_items_shape (fetch_json : string → outcome json) (key : string) :
  fetch_items fetch_json key = [] ∨
  ∃ articles, (length articles ≤ 12)%nat ∧
              fetch_items fetch_json key = snd (append_items articles []).
Proof.
  unfold fetch_items.
  destruct (fetch_json (news_url key)) as [data| |]; [|by left..].
  destruct (json_get data "results") as [results| |]; simpl; [|by left..].
  destruct (slice12 _) as [articles| |] eqn:Hs; [|by left..].
  right. exists articles. split; [by eapply slice12_length | done].
Qed.

(** X3. Whatever the environment, the provider and the clock,
    [GET /news] returns between 1 and 12 items, and none of them has an
    empty title. *)
Theorem news_size_and_titles (env : gmap string string)
    (fetch_json : string → outcome json) (now : string) :
  (1 ≤ length (get_news env fetch_json now) ≤ 12)%nat ∧
  Forall (λ item, title item ≠ "") (get_news env fetch_json now).
Proof.
  assert (Hsample : (1 ≤ length (sample_items now) ≤ 12)%nat ∧
                    Forall (λ item, title item ≠ "") (sample_items now)).
  { split; [simpl; lia|]. unfold sample_items. repeat constructor; done. }
  unfold get_news. destruct (truthy (api_key env)); [|done].
  destruct (fetch_items_shape fetch_json (default "" (api_key env)))
    as [-> | (articles & Hlen & ->)]; [done|].
  pose proof (append_items_length articles) as Hle.
  pose proof (append_items_titles articles) as Htitles.
  destruct (snd (append_items articles [])) as [|item items]; [done|].
  split; [simpl in *; lia | done].
Qed.

(** X4. The first result that cannot be mapped ends the mapping: the
    items returned are those of the results before it, and the sample
    list when there is none before it. *)
Theorem news_stops_at_unusable (env : gmap string string)
    (fetch_json : string → outcome json) (now key : string)
    (data : json) (good : list json) (bad : json) (rest : list json) :
  api_key env = Some key → key ≠ "" →
  fetch_json (news_url key) = Returned data →
  json_get data "results" = Returned (JArr (good ++ bad :: rest)) →
  Forall usable good → ¬ usable bad → (length good < 12)%nat →
  ∃ items,
    Forall2 (λ a item, news_item_of a = Returned item) good items ∧
    fetch_items fetch_json key = items ∧
    get_news env fetch_json now =
      match items with
      | [] => sample_items now
      | _ => items
      end.
Proof.
  intros Hkey Hne Hdata Hresults Hgood Hbad Hlen.
  assert (Hfetch : ∃ items,
            Forall2 (λ a item, news_item_of a = Returned item) good items ∧
            fetch_items fetch_json key = items).
  { rewrite (fetch_items_results _ _ _ _ Hdata Hresults).
    rewrite firstn_app.
    replace (firstn 12 good) with good by (symmetry; apply firstn_all2; lia).
    destruct (12 - length good)%nat as [|n] eqn:Hn; [lia|]. simpl firstn.
    assert (Hgen : ∀ acc,
              ∃ items,
                Forall2 (λ a item, news_item_of a = Returned item) good items ∧
                snd (append_items (good ++ bad :: firstn n rest) acc) =
                  acc ++ items).
    { clear Hlen Hn Hresults. induction Hgood as [|a good [item Ha] _ IH];
        intros acc'; simpl.
      - exists []. split; [constructor|]. rewrite app_nil_r.
        destruct (news_item_of bad) as [item| |] eqn:Hb; [|done..].
        destruct Hbad. by exists item.
      - rewrite Ha. destruct (IH (acc' ++ [item])) as (items & Hmap & ->).
        exists (item :: items). split; [by constructor|].
        by rewrite <- app_assoc. }
    destruct (Hgen []) as (items & Hmap & Heq).
    exists items. split; [done|]. by rewrite Heq. }
  destruct Hfetch as (items & Hmap & Hitems).
  exists items. split; [done|]. split; [done|].
  unfold get_news. rewrite Hkey. simpl default.
  destruct key; [done|]. simpl truthy. cbv iota. by rewrite Hitems.
Qed.

Lemma example_results_usable : Forall usable example_results.
Proof.
  unfold example_results. rewrite !Forall_cons.
  repeat split; try done; eexists; vm_compute; reflexivity.
Qed.

Lemma oops_unusable : ¬ usable (JStr "oops").
Proof. intros [item H]. discriminate. Qed.

Lemma news_stops_at_unusable_witness :
  ∃ items,
    Forall2 (λ a item, news_item_of a = Returned item) example_results items ∧
    fetch_items (λ _, Returned broken_feed) "k3y" = items ∧
    get_news example_env (λ _, Returned broken_feed) "2024-05-01T12:00:00" =
      match items with
      | [] => sample_items "2024-05-01T12:00:00"
      | _ => items
      end.
Proof.
  apply (news_stops_at_unusable example_env (λ _, Returned broken_feed)
           "2024-05-01T12:00:00" "k3y" broken_feed
           example_results (JStr "oops") example_results).
  - reflexivity.
  - discriminate.
  - reflexivity.
  - reflexivity.
  - exact example_results_usable.
  - exact oops_unusable.
  - simpl. lia.
Defined.

Lemma json_or_diag (a : json) : json_or a a = a.
Proof. unfold json_or. by destruct (json_truthy a). Qed.

(** X5. In a mapped item the description, the source and the date are
    the provider's own values, empty strings included, while an empty
    image link becomes no image link at all; the url is empty when the
    result has neither ["link"] nor ["url"]. *)
Theorem news_item_optional_fields (members : list (string * json))
    (item : NewsItem) :
  news_item_of (JObj members) = Returned item →
  description item = json_str (member members "description") ∧
  source item = json_str (member members "source_id") ∧
  published_at item = json_str (member members "pubDate") ∧
  image_url item ≠ Some "" ∧
  (∀ s, s ≠ "" → member members "image_url" = JStr s →
        image_url item = Some s) ∧
  (json_truthy (member members "link") = false →
   json_truthy (member members "url") = false →
   url item = "").
Proof.
  intros H.
  apply news_item_of_inv in H as (_ & Hurl & Hd & Hi & Hs & Hp).
  rewrite json_or_diag in Hi, Hp.
  split; [done|]. split; [done|]. split; [done|]. split; [|split].
  - rewrite Hi. unfold json_or.
    destruct (member members "image_url") as [|b|z|s|l|m]; simpl; try done.
    + by destruct b.
    + by destruct (z =? 0).
    + destruct (String.eqb_spec s ""); simpl; congruence.
    + by destruct l.
    + by destruct m.
  - intros s Hs' Hm. rewrite Hi, Hm. by rewrite json_or_str.
  - intros Hl Hu. unfold json_or in Hurl. rewrite Hl, Hu in Hurl.
    simpl in Hurl. congruence.
Qed.

Lemma news_item_optional_fields_witness :
  description example_item = json_str (member example_article "description") ∧
  source example_item = json_str (member example_article "source_id") ∧
  published_at example_item = json_str (member example_article "pubDate") ∧
  image_url example_item ≠ Some "" ∧
  (∀ s, s ≠ "" → member example_article "image_url" = JStr s →
        image_url example_item = Some s) ∧
  (json_truthy (member example_article "link") = false →
   json_truthy (member example_article "url") = false →
   url example_item = "").
Proof.
  apply (news_item_optional_fields example_article example_item).
  reflexivity.
Defined.

(** ** Records that were constructed *)

Lemma Tool_new_inv (parse_http_url : string → option string)
    (a : ToolArgs) (t : Tool) :
  Tool_new parse_http_url a = Returned t →
  Tool_constraints parse_http_url a ∧
  t = {| tool_name := default "" (a_name a);
         tool_description := default "" (a_description a);
         tool_category := default "" (a_category a);
         tool_tags := default [] (a_tags a);
         tool_popularity := default 0 (a_popularity a);
         tool_difficulty := default "Beginner" (a_difficulty a);
         tool_link := a_link a ≫= parse_http_url |}.
Proof.
  intros H. split.
  - apply Tool_errors_nil, Tool_new_returns. eauto.
  - unfold Tool_new in H. destruct (Tool_errors _ _); [|done]. congruence.
Qed.

Lemma Lab_new_inv (parse_http_url : string → option string)
    (a : LabArgs) (l : Lab) :
  Lab_new parse_http_url a = Returned l →
  Lab_constraints parse_http_url a ∧
  l = {| lab_title := default "" (l_title a);
         lab_category := default "" (l_category a);
         lab_estimated_minutes := default 0 (l_estimated_minutes a);
         lab_link := l_link a ≫= parse_http_url;
         lab_score := default 0 (l_score a) |}.
Proof.
  intros H. split.
  - apply Lab_errors_nil, Lab_new_returns. eauto.
  - unfold Lab_new in H. destruct (Lab_errors _ _); [|done]. congruence.
Qed.

Lemma Course_new_inv (parse_http_url : string → option string)
    (a : CourseArgs) (c : Course) :
  Course_new parse_http_url a = Returned c →
  (∀ s, c_difficulty a = Some s → s ∈ difficulty_levels) ∧
  c = {| course_title := default "" (c_title a);
         course_thumbnail := c_thumbnail a ≫= parse_http_url;
         course_difficulty := default "Beginner" (c_difficulty a);
         course_slug := default "" (c_slug a);
         course_description := c_description a |}.
Proof.
  unfold Course_new. destruct (Course_errors _ _) eqn:E; [|done].
  intros [= <-]. split; [|done].
  unfold Course_errors in E. rewrite !app_nil in E.
  destruct E as (_ & _ & E & _). exact (proj1 (literal_nil _ _ _) E).
Qed.

Lemma beginner_is_a_level : "Beginner" ∈ difficulty_levels.
Proof. unfold difficulty_levels. set_solver. Qed.

(** X6. Every [Tool], [Course] and [Lab] that a constructor call
    returns is within its schema's bounds, also where a default filled
    the field: popularity and score are not negative, category and
    difficulty are in their sets, and the minutes of a lab lie in
    5..240. *)
Theorem constructed_within_bounds (parse_http_url : string → option string) :
  (∀ a t, Tool_new parse_http_url a = Returned t →
          0 ≤ tool_popularity t ∧
          tool_category t ∈ tool_categories ∧
          tool_difficulty t ∈ difficulty_levels) ∧
  (∀ a c, Course_new parse_http_url a = Returned c →
          course_difficulty c ∈ difficulty_levels) ∧
  (∀ a l, Lab_new parse_http_url a = Returned l →
          5 ≤ lab_estimated_minutes l ≤ 240 ∧
          0 ≤ lab_score l ∧
          lab_category l ∈ difficulty_levels).
Proof.
  split; [|split].
  - intros a t H.
    apply Tool_new_inv in H as ((_ & _ & (c & Hc & Hin) & Hp & Hd & _) & ->).
    simpl. rewrite Hc. simpl. split; [|split; [done|]].
    + destruct (a_popularity a) as [p|]; simpl; [by apply Hp | lia].
    + destruct (a_difficulty a) as [s|]; simpl;
        [by apply Hd | apply beginner_is_a_level].
  - intros a c H. apply Course_new_inv in H as (Hd & ->). simpl.
    destruct (c_difficulty a) as [s|]; simpl;
      [by apply Hd | apply beginner_is_a_level].
  - intros a l H.
    apply Lab_new_inv in H as ((_ & (c & Hc & Hin) & (m & Hm & Hrange) & _ & Hs) & ->).
    simpl. rewrite Hc, Hm. simpl. split; [done|]. split; [|done].
    destruct (l_score a) as [n|]; simpl; [by apply Hs | lia].
Qed.

(** ** When [list.sort] raises *)

Lemma py_lt_other_kind (a b : value) (k : kind) :
  kind_of a = Some k → kind_of b ≠ Some k → py_lt a b = Raised TypeError.
Proof. destruct a, b; simpl; intros; simplify_eq; done. Qed.

Lemma py_lt_no_kind (a b : value) :
  kind_of a = None → py_lt a b = Raised TypeError.
Proof. destruct a, b; simpl; intros; simplify_eq; done. Qed.

Lemma comparable_tail (v : value) (vs : list value) :
  comparable (v :: vs) → comparable vs.
Proof.
  intros [Hlen | [k Hall]].
  - left. simpl in Hlen. lia.
  - right. exists k. by apply Forall_cons in Hall as [_ ?].
Qed.

Lemma comparable_rev (vs : list value) : comparable vs → comparable (rev vs).
Proof.
  intros [Hlen | [k Hall]].
  - left. by rewrite length_rev.
  - right. exists k. by rewrite <- Permutation_rev.
Qed.

Lemma comparable_sublist (vs ws : list value) :
  vs `sublist_of` ws → comparable ws → comparable vs.
Proof.
  intros Hsub [Hlen | [k Hall]].
  - left. apply sublist_length in Hsub. lia.
  - right. exists k. rewrite Forall_forall in Hall |- *.
    intros v Hv. apply Hall. by eapply elem_of_sublist.
Qed.

Section SortRaises.
Context {A : Type}.

Lemma sort_keyed_cases (l : list (value * A)) :
  (comparable (map fst l) ∧ sort_keyed l = Returned (sort_pure l)) ∨
  (¬ comparable (map fst l) ∧ sort_keyed l = Raised TypeError).
Proof.
  induction l as [|x l IH].
  { left. split; [left; simpl; lia | done]. }
  destruct IH as [[Hc Hs] | [Hnc Hs]];
    [|right; split; [intros Hc; by apply Hnc, (comparable_tail (fst x)) |
                     simpl; by rewrite Hs]].
  simpl. rewrite Hs. simpl.
  destruct l as [|y l'].
  { left. split; [left; simpl; lia | done]. }
  assert (Hperm : sort_pure (y :: l') ≡ₚ y :: l') by apply sort_pure_perm.
  destruct (sort_pure (y :: l')) as [|z s] eqn:Hz.
  { by apply Permutation_nil_l in Hperm. }
  destruct (kind_of (fst y)) as [k|] eqn:Hy.
  - assert (Hall : Forall (λ p : value * A, kind_of (fst p) = Some k) (y :: l')).
    { destruct Hc as [Hlen | [k' Hall']].
      - destruct l'; [|simpl in Hlen; lia]. by repeat constructor.
      - rewrite Forall_map in Hall'. pose proof Hall' as Hall''.
        apply Forall_cons in Hall'' as [Hk' _]. simpl in Hk'.
        assert (k' = k) as -> by congruence. done. }
    destruct (decide (kind_of (fst x) = Some k)) as [Hx | Hx].
    + left. split.
      * right. exists k.
        change (map fst (x :: y :: l')) with (fst x :: map fst (y :: l')).
        constructor; [done|]. rewrite Forall_map. exact Hall.
      * apply (insert_keyed_pure k); [done|]. by rewrite Hperm.
    + right. split.
      * intros [Hlen | [k' Hall']]; [simpl in Hlen; lia|].
        simpl in Hall'. apply Forall_cons in Hall' as [Hx' Hall'].
        apply Forall_cons in Hall' as [Hy' _]. congruence.
      * assert (Hzk : kind_of (fst z) = Some k).
        { rewrite <- Hperm in Hall. by apply Forall_cons in Hall as [? _]. }
        simpl. by rewrite (py_lt_other_kind _ _ k Hzk Hx).
  - assert (l' = []) as ->.
    { destruct Hc as [Hlen | [k' Hall']].
      - destruct l'; [done | simpl in Hlen; lia].
      - simpl in Hall'. apply Forall_cons in Hall' as [Hy' _]. congruence. }
    simpl in Hz. injection Hz as <- <-.
    right. split.
    + intros [Hlen | [k' Hall']]; [simpl in Hlen; lia|].
      simpl in Hall'. apply Forall_cons in Hall' as [_ Hall'].
      apply Forall_cons in Hall' as [Hy' _]. congruence.
    + simpl. by rewrite (py_lt_no_kind _ _ Hy).
Qed.

Lemma fst_decorate (keyf : A → value) (l : list A) :
  map fst (decorate keyf l) = map keyf l.
Proof. induction l as [|x l IH]; simpl; [done|]. by rewrite IH. Qed.

Lemma list_sort_returns (keyf : A → value) (reverse : bool) (l : list A) :
  comparable (map keyf l) →
  ∃ r, list_sort (λ x, Returned (keyf x)) reverse l = Returned r.
Proof.
  intros Hc. unfold list_sort.
  rewrite (traverse_total _ keyf) by by apply Forall_true.
  simpl. rewrite zip_decorate.
  set (dl := if reverse then rev (decorate keyf l) else decorate keyf l).
  assert (Hdl : comparable (map fst dl)).
  { unfold dl. destruct reverse; rewrite ?map_rev, fst_decorate;
      [by apply comparable_rev | done]. }
  destruct (sort_keyed_cases dl) as [[_ ->] | [Hn _]]; [|done].
  simpl. eauto.
Qed.

Lemma list_sort_raises (keyf : A → value) (reverse : bool) (l : list A) :
  ¬ comparable (map keyf l) →
  list_sort (λ x, Returned (keyf x)) reverse l = Raised TypeError.
Proof.
  intros Hc. unfold list_sort.
  rewrite (traverse_total _ keyf) by by apply Forall_true.
  simpl. rewrite zip_decorate.
  set (dl := if reverse then rev (decorate keyf l) else decorate keyf l).
  assert (Hdl : ¬ comparable (map fst dl)).
  { unfold dl. destruct reverse; rewrite ?map_rev, fst_decorate; [|done].
    intros H. apply Hc. apply comparable_rev in H. by rewrite rev_involutive in H. }
  destruct (sort_keyed_cases dl) as [[Hn _] | [_ ->]]; done.
Qed.

Lemma traverse_raises {B} (f : A → outcome B) (e : exn) (l : list A) :
  Forall (λ x, f x = Raised e ∨ ∃ y, f x = Returned y) l →
  Exists (λ x, f x = Raised e) l →
  traverse f l = Raised e.
Proof.
  induction 1 as [|x l Hx _ IH]; intros Hex; [by inversion Hex|].
  simpl. destruct Hx as [-> | [y Hy]]; [done|].
  rewrite Hy. simpl.
  inversion Hex as [? ? Hhead | ? ? Htail]; subst; [congruence|].
  by rewrite (IH Htail).
Qed.
End SortRaises.

(** ** [POST /seed]: every store *)

Lemma seeded_tools_unchanged (d : database) :
  collection (seed_labs (seed_courses d)) "tool" = collection d "tool".
Proof. by rewrite collection_seed_labs, collection_seed_courses. Qed.

(** X7. [POST /seed] twice in a row: the second call gives the answer
    of the first and leaves the store as the first left it. The first
    call answers ok or HTTP 500, only appends, never writes to a
    collection that held a record, and never writes a tool. *)
Theorem seed_twice (parse_http_url : string → option string) (d : database) :
  ∃ r d1,
    seed parse_http_url (Some d) = (r, Some d1) ∧
    seed parse_http_url (Some d1) = (r, Some d1) ∧
    (r = Returned (status_body "ok") ∨
     ∃ detail, r = Raised (HTTPException 500 detail)) ∧
    (∀ name, collection d name ≠ [] → collection d1 name = collection d name) ∧
    (∀ name, collection d name `prefix_of` collection d1 name) ∧
    collection d1 "tool" = collection d "tool".
Proof.
  destruct (decide (count_documents d "tool" = 0%nat)) as [He | Hne].
  - destruct (seed_run_without_tools parse_http_url d He) as [detail Hrun].
    exists (Raised (HTTPException 500 detail)), d.
    repeat split; eauto.
  - exists (Returned (status_body "ok")), (seed_labs (seed_courses d)).
    split; [by apply seed_run_with_tools|]. split.
    { rewrite seed_run_with_tools.
      - by rewrite seeded_fixpoint.
      - unfold count_documents. by rewrite seeded_tools_unchanged. }
    split; [by left|]. split; [intros name; apply seeded_guard|].
    split; [intros name; apply seeded_prefix | apply seeded_tools_unchanged].
Qed.

(** X8. On a store that holds a tool, [POST /seed] answers ok and
    leaves no course or lab collection empty: an empty course
    collection receives the two sample courses, in order, and an empty
    lab collection the sample lab. *)
Theorem seed_with_tools (parse_http_url : string → option string)
    (d : database) :
  collection d "tool" ≠ [] →
  ∃ d1,
    seed parse_http_url (Some d) = (Returned (status_body "ok"), Some d1) ∧
    collection d1 "course" ≠ [] ∧
    collection d1 "lab" ≠ [] ∧
    (collection d "course" = [] →
     map fields (collection d1 "course") = [ethical_hacking_doc; linux_doc]) ∧
    (collection d "lab" = [] →
     map fields (collection d1 "lab") = [recon_lab_doc]).
Proof.
  intros Hne. exists (seed_labs (seed_courses d)).
  split; [apply seed_run_with_tools; by rewrite count_empty|].
  split.
  { intros He. apply (count_seed_courses d). apply count_empty.
    by rewrite collection_seed_labs in He. }
  split.
  { intros He. apply (count_seed_labs (seed_courses d)). by apply count_empty. }
  split.
  - intros He. rewrite collection_seed_labs by done.
    unfold seed_courses, count_documents. rewrite He. simpl.
    rewrite !collection_insert_one_eq, He. done.
  - intros He.
    assert (He' : collection (seed_courses d) "lab" = [])
      by (by rewrite collection_seed_courses).
    unfold seed_labs, count_documents. rewrite He'. simpl.
    rewrite collection_insert_one_eq, He'. done.
Qed.

Lemma example_has_tools : collection example_database "tool" ≠ [].
Proof. discriminate. Qed.

Lemma seed_with_tools_witness :
  ∃ d1,
    seed Some (Some example_database) = (Returned (status_body "ok"), Some d1) ∧
    collection d1 "course" ≠ [] ∧
    collection d1 "lab" ≠ [] ∧
    (collection example_database "course" = [] →
     map fields (collection d1 "course") = [ethical_hacking_doc; linux_doc]) ∧
    (collection example_database "lab" = [] →
     map fields (collection d1 "lab") = [recon_lab_doc]).
Proof.
  apply (seed_with_tools Some example_database). exact example_has_tools.
Defined.

Lemma list_tools_collection (d d' : database) (q category sort : option string) :
  collection d' "tool" = collection d "tool" →
  list_tools (Some d') q category sort = list_tools (Some d) q category sort.
Proof. unfold list_tools. by intros ->. Qed.

(** X9. No endpoint writes a tool: after [POST /seed], [POST /subscribe]
    or [POST /contact] the tool collection is what it was, and
    [GET /tools] answers every request as it did before. *)
Theorem tools_never_written (parse_http_url : string → option string)
    (sub : Subscriber) (msg : ContactMessage) (d : database) :
  ∃ r d1 d2 d3,
    seed parse_http_url (Some d) = (r, Some d1) ∧
    subscribe sub (Some d) = (Returned (status_body "ok"), Some d2) ∧
    contact msg (Some d) = (Returned (status_body "ok"), Some d3) ∧
    ∀ d', d' ∈ [d1; d2; d3] →
      collection d' "tool" = collection d "tool" ∧
      ∀ q category sort,
        list_tools (Some d') q category sort =
          list_tools (Some d) q category sort.
Proof.
  assert (Hseed : ∃ r d1, seed parse_http_url (Some d) = (r, Some d1) ∧
                          collection d1 "tool" = collection d "tool").
  { destruct (decide (count_documents d "tool" = 0%nat)) as [He | Hne].
    - destruct (seed_run_without_tools parse_http_url d He) as [detail Hrun].
      eauto.
    - eexists _, _. split; [by apply seed_run_with_tools|].
      apply seeded_tools_unchanged. }
  destruct Hseed as (r & d1 & Hrun & Htools).
  exists r, d1, (insert_one "subscriber" (Subscriber_dump sub) d),
    (insert_one "contactmessage" (ContactMessage_dump msg) d).
  split; [done|]. split; [apply subscribe_run|]. split; [apply contact_run|].
  intros d' Hd'.
  assert (Hsame : collection d' "tool" = collection d "tool").
  { rewrite !elem_of_cons in Hd'.
    destruct Hd' as [-> | [-> | [-> | Hnil]]];
      [done | by rewrite collection_insert_one_ne
            | by rewrite collection_insert_one_ne
            | by apply not_elem_of_nil in Hnil]. }
  split; [done|]. intros q category sort. by apply list_tools_collection.
Qed.

(** ** [GET /tools]: when the sort fails *)

Lemma list_sort_raises_iff {A} (keyf : A → value) (reverse : bool) (l : list A) :
  list_sort (λ x, Returned (keyf x)) reverse l = Raised TypeError ↔
  ¬ comparable (map keyf l).
Proof.
  split; [|apply list_sort_raises].
  intros Hr Hc. destruct (list_sort_returns keyf reverse l Hc) as [r Hret].
  congruence.
Qed.

Lemma list_difficulty_cases (tools : list dict) :
  Forall (λ t, ¬ list_difficulty t) tools ∨ Exists list_difficulty tools.
Proof.
  induction tools as [|t tools [IH | IH]]; [by left | | right; by right].
  destruct (t !! "difficulty") as [[| | |l]|] eqn:E;
    try (left; constructor; [intros [l' Hl']; congruence | done]).
  right. left. by exists l.
Qed.

Lemma difficulty_key_cases (t : dict) :
  (list_difficulty t ∧
   diff_order_get (dict_get t "difficulty" (VStr "Beginner")) = Raised TypeError) ∨
  (¬ list_difficulty t ∧
   diff_order_get (dict_get t "difficulty" (VStr "Beginner")) =
     Returned (difficulty_sort_key t)).
Proof.
  unfold difficulty_sort_key, dict_get, list_difficulty.
  destruct (t !! "difficulty") as [[| | |l]|]; simpl;
    try (right; split; [intros [l' Hl']; congruence | done]).
  left. eauto.
Qed.

Lemma difficulty_sort_key_int (t : dict) :
  kind_of (difficulty_sort_key t) = Some KInt.
Proof.
  unfold difficulty_sort_key. by destruct (dict_get t "difficulty" (VStr "Beginner")).
Qed.

Lemma sort_difficulty_raises (tools : list dict) :
  Exists list_difficulty tools →
  sort_tools (Some "difficulty") tools = Raised TypeError.
Proof.
  intros Hex.
  change (sort_tools (Some "difficulty") tools) with
    (list_sort (λ x, diff_order_get (dict_get x "difficulty" (VStr "Beginner")))
               false tools).
  unfold list_sort. rewrite (traverse_raises _ TypeError); [done| |].
  - apply Forall_forall. intros t _.
    destruct (difficulty_key_cases t) as [[_ ->] | [_ ->]]; eauto.
  - eapply Exists_impl; [exact Hex|]. intros t Ht.
    by destruct (difficulty_key_cases t) as [[_ ->] | [Hn _]].
Qed.

Lemma sort_difficulty_returns (tools : list dict) :
  Forall (λ t, ¬ list_difficulty t) tools →
  ∃ r, sort_tools (Some "difficulty") tools = Returned r.
Proof.
  intros Hall.
  destruct (list_sort_returns difficulty_sort_key false tools) as [r Hr].
  { right. exists KInt. rewrite Forall_map. apply Forall_true.
    intros t. apply difficulty_sort_key_int. }
  exists r. rewrite <- Hr.
  change (sort_tools (Some "difficulty") tools) with
    (list_sort (λ x, diff_order_get (dict_get x "difficulty" (VStr "Beginner")))
               false tools).
  unfold list_sort.
  rewrite (traverse_total _ difficulty_sort_key).
  - by rewrite (traverse_total (λ x, Returned (difficulty_sort_key x))
                               difficulty_sort_key) by by apply Forall_true.
  - eapply Forall_impl; [exact Hall|]. intros t Ht. simpl.
    by destruct (difficulty_key_cases t) as [[Hl _] | [_ ->]].
Qed.

(** X10. When the sort of [GET /tools] fails. By popularity or by
    category it raises [TypeError] exactly when the keys of the records
    found are of more than one type (or a lone pair holds a [None]);
    by difficulty exactly when some record keeps a list under
    ["difficulty"], which the rank table cannot look up. With any
    other [sort], or none, nothing is compared and the records come
    back as found. *)
Theorem sort_type_errors (tools : list dict) :
  (sort_tools (Some "popularity") tools = Raised TypeError ↔
     ¬ comparable (map popularity_sort_key tools)) ∧
  (sort_tools (Some "category") tools = Raised TypeError ↔
     ¬ comparable (map category_sort_key tools)) ∧
  (sort_tools (Some "difficulty") tools = Raised TypeError ↔
     Exists list_difficulty tools) ∧
  (∀ sort, sort_is sort "popularity" = false →
           sort_is sort "difficulty" = false →
           sort_is sort "category" = false →
           sort_tools sort tools = Returned tools).
Proof.
  split; [|split; [|split]].
  - apply (list_sort_raises_iff popularity_sort_key true).
  - apply (list_sort_raises_iff category_sort_key false).
  - split; [|apply sort_difficulty_raises].
    intros Hr. destruct (list_difficulty_cases tools) as [Hall | Hex]; [|done].
    destruct (sort_difficulty_returns tools Hall) as [r Hret]. congruence.
  - intros sort Hp Hd Hc. unfold sort_tools. by rewrite Hp, Hd, Hc.
Qed.

(** Two stored tools with an int and a str for a popularity: the
    unsorted listing answers, the three sorts fail. *)
Example mixed_database_sorts :
  (∃ r, list_tools (Some mixed_database) None None None = Returned r) ∧
  list_tools (Some mixed_database) None None (Some "popularity") = Raised TypeError ∧
  list_tools (Some mixed_database) None None (Some "category") = Raised TypeError ∧
  list_tools (Some mixed_database) None None (Some "difficulty") = Raised TypeError.
Proof. repeat split; [eexists|..]; vm_compute; reflexivity. Qed.
